(** * calmhive-cli voice front-end: trigger detection and command dispatch

    A shallow embedding of the trigger-phrase matchers, the dynamic context
    sizing, the utterance finalisation, the stop-command classifier and the
    two command routers of the voice front-end, followed by the properties
    that the specification states about them.

    Texts are Python [str] values.  They are modelled as [string]s whose
    characters are the code points below 256; the string primitives below
    follow Python on that range. *)

From Stdlib Require Import String Ascii List ZArith QArith Bool Arith Lia.
Import ListNotations.

Close Scope Q_scope.
Open Scope string_scope.
Open Scope nat_scope.

(** ** Python string primitives *)

Module PyStr.

(** [str.isspace] on one code point below 256. *)
Definition isspace (c : ascii) : bool :=
  let n := nat_of_ascii c in
  ((9 <=? n) && (n <=? 13)) || ((28 <=? n) && (n <=? 32))
  || (n =? 133) || (n =? 160).

(** [str.lower] on one code point below 256: A-Z and the upper-case
    Latin-1 letters move up by 32, the multiplication sign 215 stays. *)
Definition lower_char (c : ascii) : ascii :=
  let n := nat_of_ascii c in
  if ((65 <=? n) && (n <=? 90))
     || ((192 <=? n) && (n <=? 222) && negb (n =? 215))
  then ascii_of_nat (n + 32) else c.

Fixpoint lower (s : string) : string :=
  match s with
  | EmptyString => EmptyString
  | String c s' => String (lower_char c) (lower s')
  end.

(** The regular-expression class [\w] of a [str] pattern:
    alphanumeric code points and the underscore. *)
Definition isword (c : ascii) : bool :=
  let n := nat_of_ascii c in
  ((48 <=? n) && (n <=? 57)) || ((65 <=? n) && (n <=? 90))
  || ((97 <=? n) && (n <=? 122)) || (n =? 95)
  || (n =? 170) || (n =? 178) || (n =? 179) || (n =? 181) || (n =? 185)
  || (n =? 186) || ((188 <=? n) && (n <=? 190))
  || ((192 <=? n) && (n <=? 214)) || ((216 <=? n) && (n <=? 246))
  || (248 <=? n).

Fixpoint rev_append (s acc : string) : string :=
  match s with
  | EmptyString => acc
  | String c s' => rev_append s' (String c acc)
  end.

Definition rev (s : string) : string := rev_append s EmptyString.

Fixpoint lstrip (s : string) : string :=
  match s with
  | EmptyString => EmptyString
  | String c s' => if isspace c then lstrip s' else s
  end.

(** [s.strip()] *)
Definition strip (s : string) : string := rev (lstrip (rev (lstrip s))).

(** [s.split()]: the maximal runs of non-whitespace, in order.  [cur] holds
    the current run, reversed. *)
Fixpoint split_aux (s cur : string) : list string :=
  match s with
  | EmptyString =>
      match cur with EmptyString => [] | _ => [rev cur] end
  | String c s' =>
      if isspace c then
        match cur with
        | EmptyString => split_aux s' EmptyString
        | _ => rev cur :: split_aux s' EmptyString
        end
      else split_aux s' (String c cur)
  end.

Definition split (s : string) : list string := split_aux s EmptyString.

(** [s.startswith(p)] *)
Fixpoint startswith (p s : string) : bool :=
  match p, s with
  | EmptyString, _ => true
  | String _ _, EmptyString => false
  | String a p', String b s' => Ascii.eqb a b && startswith p' s'
  end.

(** [sub in s] for two strings. *)
Fixpoint contains (sub s : string) : bool :=
  startswith sub s
  || match s with
     | EmptyString => false
     | String _ s' => contains sub s'
     end.

(** [s.count(sub)]: occurrences found left to right without overlap.
    [skip] counts the characters still covered by the last occurrence. *)
Fixpoint count_aux (sub s : string) (skip : nat) : nat :=
  match s with
  | EmptyString => 0
  | String _ s' =>
      match skip with
      | S k => count_aux sub s' k
      | O => if startswith sub s
             then S (count_aux sub s' (String.length sub - 1))
             else count_aux sub s' 0
      end
  end.

Definition count (sub s : string) : nat :=
  match sub with
  | EmptyString => S (String.length s)
  | _ => count_aux sub s 0
  end.

(** [sep.join(parts)] *)
Fixpoint join (sep : string) (parts : list string) : string :=
  match parts with
  | [] => EmptyString
  | [p] => p
  | p :: rest => p ++ sep ++ join sep rest
  end.

(** [x in xs] for a list of strings. *)
Definition mem (x : string) (xs : list string) : bool :=
  existsb (String.eqb x) xs.

(** [xs == ys] for two lists of strings. *)
Fixpoint list_eqb (xs ys : list string) : bool :=
  match xs, ys with
  | [], [] => true
  | x :: xs', y :: ys' => String.eqb x y && list_eqb xs' ys'
  | _, _ => false
  end.

(** [bool(s)]: a text is truthy when it is not empty. *)
Definition truthy (s : string) : bool :=
  match s with EmptyString => false | _ => true end.

(** [len(s)] *)
Definition len (s : string) : Z := Z.of_nat (String.length s).

End PyStr.

(** ** consolidated/trigger_words.py: the boolean matcher *)

Module TriggerWords.
Import PyStr.

Definition TRIGGER_VARIATIONS : list (string * list string) :=
  [ ("friend",
      ["friend"; "friends"; "friendly"; "befriend"; "my friend"; "hey friend";
       "hello friend"; "hi friend"; "now friend"; "ok friend"; "okay friend";
       "fiend"; "fren"; "front"; "trend"; "end"; "rent"]);
    ("code",
      ["code helper"; "code buddy"; "code friend"; "coding"; "let's code";
       "start coding"; "code with me"; "code assistant"]);
    ("assistant",
      ["assistant please"; "my assistant"; "hey assistant"; "Claude assistant";
       "assistants"; "assistance"; "assisting"; "assist me"]);
    ("project",
      ["project helper"; "project buddy"; "project assistant"; "my project";
       "help with project"; "project work"; "project setup"]);
    ("calmhive",
      ["calmhive"; "calm hive"; "calm helper"; "hive helper";
       "calm hive helper"; "calmhive assistant"]);
    ("do",
      ["do this now"; "do this for me"; "do this please"; "do that for me"]);
    ("help",
      ["help me with"; "help me out"; "help with this"; "can you help";
       "could you help"; "i need help with"]);
    ("please",
      ["could you please"; "would you please"; "please assist";
       "please help me"; "if you please"]) ].

(** The flattening loop: each key, then its variations. *)
Definition flatten (tv : list (string * list string)) : list string :=
  flat_map (fun kv => fst kv :: snd kv) tv.

Definition ALL_TRIGGERS : list string := flatten TRIGGER_VARIATIONS.

Definition greetings : list string := ["hey"; "hi"; "hello"; "ok"; "okay"].

Definition trigger_starts : list string :=
  ["assist"; "friend"; "code"; "calm"; "project"; "help"].

Definition action_triplets : list (string * string * string) :=
  [ ("let", "'s", "code"); ("help", "me", "with"); ("do", "this", "now");
    ("could", "you", "please"); ("code", "with", "me");
    ("i", "need", "help") ].

Definition emphasis_patterns : list string :=
  ["please help"; "need assistance"; "can you do"; "would you do";
   "need your help"; "want your help"; "help me out"].

(** [text_words[i:i+n] == trigger_words] for some [i] of
    [range(len(text_words) - len(trigger_words) + 1)]. *)
Definition window_hit (text_words trigger_words : list string) : bool :=
  let n := List.length trigger_words in
  existsb (fun i => list_eqb (firstn n (skipn i text_words)) trigger_words)
          (seq 0 (List.length text_words + 1 - n)).

(** One round of the second loop: [true] when the round returns [True],
    [false] when it falls through or [continue]s. *)
Definition variation_hit (text_lower trigger : string) : bool :=
  if contains trigger text_lower then
    let text_words := split text_lower in
    if (List.length text_words <? 3) && existsb (fun w => String.eqb w trigger) text_words
    then false
    else if 1 <? List.length (split trigger)
         then window_hit text_words (split trigger)
         else existsb (fun w => String.eqb w trigger) text_words
  else false.

(** One round of the pattern loop over [range(len(words) - 1)]. *)
Definition pattern_hit (action : list (string * string * string))
    (starts : list string) (words : list string) (i : nat) : bool :=
  let w0 := nth i words "" in
  let w1 := nth (i + 1) words "" in
  let w2 := nth (i + 2) words "" in
  (mem w0 greetings && existsb (fun st => startswith st w1) starts)
  || ((i <? List.length words - 2)
      && existsb (fun t => match t with
                           | (a, b, c) =>
                               String.eqb w0 a && String.eqb w1 b && String.eqb w2 c
                           end) action).

Definition contains_trigger_word (text : string) : bool :=
  if negb (truthy text) then false
  else
    let text_lower := lower text in
    if mem (strip text_lower) ["hello"; "hi"; "hey"; "ok"; "okay"] then false
    else
      let padded_text := " " ++ text_lower ++ " " in
      if existsb (fun trigger =>
                    (1 <? List.length (split trigger))
                    && contains (" " ++ trigger ++ " ") padded_text)
                 ALL_TRIGGERS then true
      else if existsb (variation_hit text_lower) ALL_TRIGGERS then true
      else
        let words := split text_lower in
        if existsb (pattern_hit action_triplets trigger_starts words)
                   (seq 0 (List.length words - 1)) then true
        else existsb (fun pattern => contains pattern text_lower)
                     emphasis_patterns.

End TriggerWords.

(** ** lib/voice/trigger_words.py: the confidence-scored matcher *)

Module EnhancedTriggerWords.
Import PyStr.

Definition TRIGGER_VARIATIONS : list (string * list string) :=
  [ ("claude",
      ["claude"; "cloud"; "clod"; "clawed"; "cloud"; "clout"; "clown"; "claud";
       "clod"; "clawed"; "claude's"; "clouds"; "cloudy"]);
    ("friend",
      ["friend"; "friends"; "friendly"; "befriend"; "my friend"; "hey friend";
       "fiend"; "fren"; "front"; "trend"; "end"; "rent"; "fred"; "fried"]);
    ("code",
      ["code"; "coder"; "coding"; "encode"; "decode"; "coded"; "codes";
       "code helper"; "code buddy"; "let's code"; "kode"; "coat"; "cold"]);
    ("calmhive",
      ["calmhive"; "calm hive"; "calm-hive"; "call hive"; "call mine";
       "calm mind"; "calm five"; "com hive"; "bee hive"; "bee helper"]);
    ("assistant",
      ["assistant"; "assist"; "assistance"; "assistive"; "assisting";
       "assists"; "assist me"; "assistant please"; "my assistant";
       "hey assistant"]);
    ("help",
      ["help"; "helper"; "helping"; "helped"; "helps"; "help me";
       "can you help"; "please help"; "i need help"; "would you help"]);
    ("hey",
      ["hey"; "hi"; "hello"; "hey there"; "hey you"; "hey now"; "hay"; "they";
       "hay"]);
    ("ok",
      ["ok"; "okay"; "ok now"; "alright"; "all right"; "o.k."; "ok then"]);
    ("voice",
      ["voice"; "voice assistant"; "voice helper"; "voice mode"; "by voice";
       "with voice"; "through voice"; "using voice"]);
    ("command",
      ["command"; "do this"; "execute"; "run"; "perform"; "please"; "can you";
       "would you"; "could you"; "execute command"; "run command"]) ].

(** The fragment of regular expressions that [COMPOUND_PATTERNS] uses:
    literals, alternation, sequence and [\s+]. *)
Inductive re : Type :=
| Lit (s : string)
| Alt (a b : re)
| Seq (a b : re)
| Spaces.

(** [(w1|w2|...)] *)
Fixpoint alts (ws : list string) : re :=
  match ws with
  | [] => Lit ""
  | [w] => Lit w
  | w :: rest => Alt (Lit w) (alts rest)
  end.

Fixpoint drop (n : nat) (s : string) : string :=
  match n, s with
  | S k, String _ s' => drop k s'
  | _, _ => s
  end.

(** What is left of [s] after one or more leading whitespace characters,
    one entry per number of characters taken. *)
Fixpoint space_tails (s : string) : list string :=
  match s with
  | String c s' => if isspace c then s' :: space_tails s' else []
  | EmptyString => []
  end.

(** All the ways [r] matches at the start of [s], each given by the rest of
    [s] behind the match. *)
Fixpoint match_re (r : re) (s : string) : list string :=
  match r with
  | Lit l => if startswith l s then [drop (String.length l) s] else []
  | Alt a b => (match_re a s ++ match_re b s)%list
  | Seq a b => flat_map (match_re b) (match_re a s)
  | Spaces => space_tails s
  end.

Definition match_at (r : re) (s : string) : bool :=
  match match_re r s with [] => false | _ => true end.

(** [re.search(r, s)] for a pattern without anchor: a match at some
    position of [s]. *)
Fixpoint search (r : re) (s : string) : bool :=
  match_at r s
  || match s with
     | EmptyString => false
     | String _ s' => search r s'
     end.

(** A pattern of the table: [anchored] stands for a leading [^]. *)
Record pattern : Type := { anchored : bool; body : re }.

Definition re_search (p : pattern) (s : string) : bool :=
  if anchored p then match_at (body p) s else search (body p) s.

Definition unanchored (r : re) : pattern := {| anchored := false; body := r |}.

Definition COMPOUND_PATTERNS : list (pattern * Q) :=
  [ (unanchored
       (Seq (alts ["hey"; "hi"; "hello"; "ok"; "okay"])
            (Seq Spaces
                 (alts ["claude"; "friend"; "assistant"; "calmhive"; "code"]))),
     (9 # 10)%Q);
    (unanchored
       (Seq (alts ["let's"; "let us"])
            (Seq Spaces
                 (alts ["code"; "build"; "create"; "make"; "generate"]))),
     (8 # 10)%Q);
    (unanchored
       (Seq (alts ["help"; "assist"])
            (Seq Spaces (Seq (alts ["me"; "us"]) (Seq Spaces (Lit "with"))))),
     (8 # 10)%Q);
    (unanchored
       (Seq (alts ["can"; "could"; "would"])
            (Seq Spaces
                 (Seq (Lit "you")
                      (Seq Spaces
                           (alts ["help"; "assist"; "show"; "tell";
                                  "explain"]))))),
     (7 # 10)%Q);
    (unanchored
       (Seq (alts ["what"; "how"; "why"; "when"; "where"; "who"])
            (Seq Spaces
                 (Seq (alts ["can"; "should"; "would"; "could"; "do"; "does";
                             "is"; "are"])
                      Spaces))),
     (6 # 10)%Q);
    (unanchored
       (Seq (alts ["please"; "kindly"; "can you please"; "would you please"])
            (Seq Spaces
                 (alts ["help"; "show"; "tell"; "explain"; "create"]))),
     (7 # 10)%Q);
    ({| anchored := true;
        body := Seq (alts ["find"; "create"; "build"; "make"; "show"; "tell";
                           "explain"; "write"])
                    Spaces |},
     (6 # 10)%Q) ].

(** [list(dict.fromkeys(xs))]: the first occurrence of each entry, in
    order.  [seen] holds the entries already kept. *)
Fixpoint fromkeys (xs seen : list string) : list string :=
  match xs with
  | [] => []
  | x :: rest =>
      if mem x seen then fromkeys rest seen
      else x :: fromkeys rest (x :: seen)
  end.

Definition ALL_TRIGGERS : list string :=
  fromkeys (flat_map (fun kv => fst kv :: snd kv) TRIGGER_VARIATIONS) [].

(** [max(a, b)] on confidences. *)
Definition qmax (a b : Q) : Q := if Qle_bool b a then a else b.

(** [re.search(r'\b' + re.escape(variant) + r'\b', text)]: an occurrence
    of [variant] with a word boundary on each side.  [prev] is the character
    before the current position, if any. *)
Definition boundary (prev next : option ascii) : bool :=
  let w o := match o with Some c => isword c | None => false end in
  xorb (w prev) (w next).

Definition head_of (s : string) : option ascii :=
  match s with String c _ => Some c | EmptyString => None end.

Fixpoint last_of (s : string) (d : option ascii) : option ascii :=
  match s with String c s' => last_of s' (Some c) | EmptyString => d end.

Fixpoint search_bounded (variant s : string) (prev : option ascii) : bool :=
  (startswith variant s
   && boundary prev (head_of s)
   && boundary (last_of variant prev)
               (head_of (drop (String.length variant) s)))
  || match s with
     | EmptyString => false
     | String c s' => search_bounded variant s' (Some c)
     end.

(** The variation loop of one key. *)
Definition score_variations (text_lower : string) (variations : list string)
    (max_confidence : Q) : Q :=
  fold_left
    (fun conf variant =>
       if contains variant text_lower then
         if search_bounded variant text_lower None
         then qmax conf (9 # 10)%Q
         else qmax conf (7 # 10)%Q
       else conf)
    variations max_confidence.

(** The loop over the table: [None] when a key matches as a whole word and
    the function returns [True] at once, else the confidence reached. *)
Fixpoint scan_table (text_lower : string) (tv : list (string * list string))
    (max_confidence : Q) : option Q :=
  match tv with
  | [] => Some max_confidence
  | (primary, variations) :: rest =>
      if contains (" " ++ primary ++ " ") (" " ++ text_lower ++ " ")
      then None
      else scan_table text_lower rest
             (score_variations text_lower variations max_confidence)
  end.

Definition score_patterns (text_lower : string) (max_confidence : Q) : Q :=
  fold_left
    (fun conf pc => if re_search (fst pc) text_lower
                    then qmax conf (snd pc) else conf)
    COMPOUND_PATTERNS max_confidence.

Fixpoint take (n : nat) (s : string) : string :=
  match n, s with
  | S k, String c s' => String c (take k s')
  | _, _ => EmptyString
  end.

(** The prefix comparison of one word with one trigger. *)
Definition score_prefix (word trigger : string) (max_confidence : Q) : Q :=
  if String.length trigger <=? 2 then max_confidence
  else if (3 <=? String.length word) && (3 <=? String.length trigger) then
    let min_len := Nat.min (String.length word) (String.length trigger) in
    if String.eqb (take min_len word) (take min_len trigger) then
      let similarity :=
        (inject_Z (Z.of_nat min_len)
         / inject_Z (Z.of_nat (Nat.max (String.length word)
                                       (String.length trigger))))%Q in
      qmax max_confidence (similarity * (8 # 10))%Q
    else max_confidence
  else max_confidence.

Definition score_words (words : list string) (max_confidence : Q) : Q :=
  if 3 <=? List.length words then
    fold_left
      (fun conf word =>
         if String.length word <=? 2 then conf
         else fold_left (fun c trigger => score_prefix word trigger c)
                        ALL_TRIGGERS conf)
      words max_confidence
  else max_confidence.

(** [contains_trigger_word(text, threshold)].  Confidences are Python
    floats; they are modelled as exact rationals. *)
Definition contains_trigger_word (text : string) (threshold : Q) : bool :=
  if negb (truthy text) then false
  else
    let text_lower := lower text in
    if mem (strip text_lower) ["hello"; "hi"; "hey"; "ok"; "okay"] then false
    else
      match scan_table text_lower TRIGGER_VARIATIONS 0%Q with
      | None => true
      | Some c1 =>
          let c2 := score_patterns text_lower c1 in
          let c3 := score_words (split text_lower) c2 in
          Qle_bool threshold c3
      end.

Definition default_threshold : Q := (6 # 10)%Q.

End EnhancedTriggerWords.

(** ** consolidated/voice_to_claude_code.py: the assistant *)

Module VoiceToClaudeCode.
Import PyStr.

(** *** Configuration *)

(** The table used when [from .trigger_words import ...] fails. *)
Definition BUILTIN_TRIGGER_VARIATIONS : list (string * list string) :=
  [ ("friend",
      ["friend"; "friends"; "friendly"; "befriend"; "my friend"; "hey friend";
       "fiend"; "fren"; "front"; "trend"; "end"; "rent"]);
    ("code", ["code helper"; "code buddy"; "let's code"]);
    ("assistant", ["assistant please"; "my assistant"; "hey assistant"]) ].

(** The module globals.  [trigger_module] tells whether the import of the
    trigger-word module succeeds; the three numbers are the globals that
    [main] overrides from the command line. *)
Record config : Type := {
  trigger_module : bool;
  CONTEXT_LENGTH_BASE : Z;
  CONTEXT_LENGTH_MAX : Z;
  MIN_TEXT_LENGTH : Z
}.

Definition default_config : config :=
  {| trigger_module := true;
     CONTEXT_LENGTH_BASE := 30;
     CONTEXT_LENGTH_MAX := 100;
     MIN_TEXT_LENGTH := 10 |}.

Definition TRIGGER_VARIATIONS (cfg : config) : list (string * list string) :=
  if trigger_module cfg then TriggerWords.TRIGGER_VARIATIONS
  else BUILTIN_TRIGGER_VARIATIONS.

Definition ALL_TRIGGERS (cfg : config) : list string :=
  if trigger_module cfg then TriggerWords.ALL_TRIGGERS
  else TriggerWords.flatten BUILTIN_TRIGGER_VARIATIONS.

(** *** check_for_trigger_word *)

Definition builtin_action_triplets : list (string * string * string) :=
  [ ("let", "'s", "code"); ("help", "me", "with"); ("code", "with", "me") ].

Definition builtin_trigger_starts : list string :=
  ["assist"; "friend"; "code"; "calm"; "project"].

(** The body used when the trigger-word module is not available. *)
Definition builtin_check (cfg : config) (text : string) : bool :=
  let text_lower := lower text in
  if mem (strip text_lower) ["hello"; "hi"; "hey"; "ok"; "okay"] then false
  else if existsb (fun primary =>
                     contains (" " ++ primary ++ " ") (" " ++ text_lower ++ " "))
                  (map fst (TRIGGER_VARIATIONS cfg)) then true
  else if existsb (fun trigger =>
                     contains trigger text_lower
                     && negb ((List.length (split text_lower) <? 3)
                              && existsb (fun w => String.eqb w trigger)
                                         (split text_lower)))
                  (ALL_TRIGGERS cfg) then true
  else
    let words := split text_lower in
    existsb (TriggerWords.pattern_hit builtin_action_triplets
               builtin_trigger_starts words)
            (seq 0 (List.length words - 1)).

Definition check_for_trigger_word (cfg : config) (text : string) : bool :=
  if trigger_module cfg then TriggerWords.contains_trigger_word text
  else builtin_check cfg text.

(** *** get_dynamic_context_length *)

Definition complexity_markers : list string :=
  ["."; ","; "?"; "!"; ";"; ":"; "("; ")"; "-"].

(** [sum(text.count(x) for x in xs)] *)
Definition count_all (xs : list string) (text : string) : Z :=
  fold_right (fun x acc => (Z.of_nat (count x text) + acc)%Z) 0%Z xs.

Definition get_dynamic_context_length (cfg : config) (text : string) : Z :=
  if negb (truthy text) then CONTEXT_LENGTH_BASE cfg
  else
    let context_length := CONTEXT_LENGTH_BASE cfg in
    let text_length := len text in
    let context_length :=
      (if 500 <? text_length then context_length + 20
       else if 200 <? text_length then context_length + 10
       else if 100 <? text_length then context_length + 5
       else context_length)%Z in
    let complexity_count := count_all complexity_markers text in
    let context_length :=
      (if 15 <? complexity_count then context_length + 15
       else if 10 <? complexity_count then context_length + 10
       else if 5 <? complexity_count then context_length + 5
       else context_length)%Z in
    let text_lower := lower text in
    let trigger_count := count_all (ALL_TRIGGERS cfg) text_lower in
    let context_length :=
      (if 3 <? trigger_count then context_length + 15
       else if 1 <? trigger_count then context_length + 10
       else if 0 <? trigger_count then context_length + 5
       else context_length)%Z in
    Z.min context_length (CONTEXT_LENGTH_MAX cfg).

(** *** The assistant object *)

Record entry : Type := { role : string; content : string }.

Record assistant : Type := {
  conversation_history : list entry;
  context_buffer : list string;
  context_text : string;
  trigger_already_displayed : bool
}.

Definition with_history (h : list entry) (self : assistant) : assistant :=
  {| conversation_history := h;
     context_buffer := context_buffer self;
     context_text := context_text self;
     trigger_already_displayed := trigger_already_displayed self |}.

(** *** listen: the realtime update *)

(** [buf[-n:]] *)
Definition slice_last (n : Z) (buf : list string) : list string :=
  if (n =? 0)%Z then buf
  else if (n <? 0)%Z then skipn (Z.to_nat (- n)) buf
  else skipn (List.length buf - Z.to_nat n) buf.

(** [on_realtime_update(text)]: the new object and the line written to the
    terminal, if any. *)
Definition on_realtime_update (cfg : config) (self : assistant)
    (text : string) : assistant * option string :=
  if truthy text && truthy (strip text) then
    let context_text := strip (context_text self ++ " " ++ text) in
    let dynamic_context_length := get_dynamic_context_length cfg context_text in
    let buf := (context_buffer self ++ [text])%list in
    let buf :=
      if (dynamic_context_length <? Z.of_nat (List.length buf))%Z
      then slice_last dynamic_context_length buf else buf in
    let combined_text := join " " buf in
    let detected :=
      negb (trigger_already_displayed self)
      && check_for_trigger_word cfg combined_text in
    ({| conversation_history := conversation_history self;
        context_buffer := buf;
        context_text := context_text;
        trigger_already_displayed :=
          trigger_already_displayed self || detected |},
     Some ("Listening: "
           ++ (if detected then "[TRIGGER DETECTED] " ++ text else text)))
  else (self, None).

(** *** listen: the final-result callback *)

(** The backward search [for i in range(len(buf) - 1, -1, -1)]: the indices
    below [i], from the highest down. *)
Fixpoint find_trigger_below (check : string -> bool) (buf : list string)
    (i : nat) : option nat :=
  match i with
  | O => None
  | S k => if check (nth k buf "") then Some k
           else find_trigger_below check buf k
  end.

(** The loop that builds [cleaned_context]. *)
Fixpoint clean_context (context_from_trigger : list string) : list string :=
  match context_from_trigger with
  | [] => []
  | entry :: rest =>
      match rest with
      | next_entry :: _ =>
          if contains entry next_entry then clean_context rest
          else entry :: clean_context rest
      | [] => [entry]
      end
  end.

(** [callback(text)]: the value left in [result_container["text"]], which
    starts as the empty text.  [check] is the trigger test. *)
Definition callback (check : string -> bool) (context_buffer : list string)
    (text : string) : string :=
  if truthy text then
    if negb (check text)
       && match context_buffer with [] => false | _ => true end
    then
      match find_trigger_below check context_buffer
              (List.length context_buffer) with
      | Some trigger_index =>
          if List.length context_buffer - trigger_index <=? 5 then
            let context_from_trigger := skipn trigger_index context_buffer in
            let cleaned_context := clean_context context_from_trigger in
            join " " (cleaned_context ++ [text])%list
          else text
      | None => text
      end
    else text
  else "".

(** *** process_message: the stop-command test *)

Definition stop_patterns : list string :=
  ["stop"; "cancel"; "abort"; "quit"; "exit"; "halt"; "terminate"; "break";
   "stop command"; "cancel command"].

Definition query_indicators : list string :=
  ["can"; "could"; "what"; "who"; "when"; "where"; "how"; "why"; "is"; "are";
   "was"; "tell"; "show"; "find"; "search"; "help"; "please"; "explain";
   "describe"; "list"; "create"; "make"].

Definition definite_stop_phrases : list string :=
  ["stop command"; "cancel command"; "i want to stop"; "stop now please";
   "please stop now"; "stop execution"; "cancel execution"; "abort execution";
   "abort this"; "cancel this"; "stop this"].

Definition check_for_stop_command (text : string) : bool :=
  if negb (truthy text) then false
  else
    let text_lower := lower text in
    let words := split text_lower in
    let word_count := List.length words in
    if (word_count <=? 3)
       && (existsb (fun word => mem word stop_patterns) words
           || ((word_count =? 2)
               && existsb (fun pattern => contains pattern text_lower)
                          stop_patterns))
    then true
    else if existsb
              (fun pattern =>
                 startswith (pattern ++ " ") text_lower
                 && let rest_of_text :=
                      strip (EnhancedTriggerWords.drop (String.length pattern)
                                                       text_lower) in
                    let words_after := split rest_of_text in
                    negb (existsb (fun word => mem word query_indicators)
                                  (firstn 3 words_after)))
              stop_patterns
    then true
    else existsb (fun phrase => contains phrase text_lower)
                 definite_stop_phrases.

(** *** process_message: the wait for the executor

    Two threads share the flag [process_cancelled]: the main thread, which
    blocks in [process.communicate()], shuts the cancel monitor down and
    then reads the flag, and the monitor thread, whose [cancel_callback]
    sets it.  Their statements are interleaved one at a time. *)

(** The test of [cancel_callback] on a transcript of the cancel monitor. *)
Definition monitor_stop_words : list string :=
  ["stop"; "cancel"; "halt"; "abort"; "quit"; "end"; "shut"; "terminate";
   "break"; "enough"; "no more"; "stop it"; "cancel it"].

Definition monitor_phrases : list string :=
  ["stop it"; "cancel it"; "make it stop"].

Definition is_stop_command (text_lower word : string) : bool :=
  mem word monitor_stop_words
  || existsb (fun stop => (List.length (split stop) =? 1) && startswith stop word)
             monitor_stop_words
  || existsb (fun phrase => contains phrase text_lower) monitor_phrases.

Definition monitor_detects (text : string) : bool :=
  let text_lower := lower text in
  let words := split text_lower in
  existsb (is_stop_command text_lower) words
  || existsb (fun phrase => contains phrase text_lower) monitor_phrases.

(** The subprocess as [process.poll()] sees it. *)
Inductive proc_state : Type :=
| Running
| Exited (returncode : Z) (stdout stderr : string).

(** How the wait ends. *)
Inductive exec_outcome : Type :=
| Completed (returncode : Z) (stdout stderr : string)
| VoiceCancelled
| Interrupted.

(** Where the main thread stands: blocked in [process.communicate()],
    shutting the cancel monitor down, about to read [process_cancelled], or
    past that read. *)
Inductive main_pc : Type :=
| InCommunicate
| InShutdown
| AtCheck
| Returned (o : exec_outcome).

Record wait_state : Type := {
  proc : proc_state;
  process_cancelled : bool;
  monitor_listening : bool;
  main : main_pc
}.

(** What can happen while the main thread waits: the subprocess ends, the
    cancel monitor hands its transcript to [cancel_callback] (the recorder
    calls it once), the main thread takes its next step, or Ctrl+C reaches
    the main thread.  A subprocess that [cancel_callback] signals ends
    through [ProcExit] like any other. *)
Inductive label : Type :=
| ProcExit (returncode : Z) (stdout stderr : string)
| Heard (text : string)
| MainStep
| CtrlC.

Definition set_main (m : main_pc) (st : wait_state) : wait_state :=
  {| proc := proc st; process_cancelled := process_cancelled st;
     monitor_listening := monitor_listening st; main := m |}.

Definition step (st : wait_state) (l : label) : wait_state :=
  match l with
  | ProcExit rc out err =>
      match proc st with
      | Running =>
          {| proc := Exited rc out err;
             process_cancelled := process_cancelled st;
             monitor_listening := monitor_listening st; main := main st |}
      | Exited _ _ _ => st
      end
  | Heard text =>
      if monitor_listening st then
        {| proc := proc st;
           process_cancelled :=
             process_cancelled st || (truthy text && monitor_detects text);
           monitor_listening := false; main := main st |}
      else st
  | MainStep =>
      match main st with
      | InCommunicate =>
          match proc st with
          | Running => st
          | Exited _ _ _ => set_main InShutdown st
          end
      | InShutdown => set_main AtCheck st
      | AtCheck =>
          match proc st with
          | Running => st
          | Exited rc out err =>
              set_main (Returned (if process_cancelled st then VoiceCancelled
                                  else Completed rc out err)) st
          end
      | Returned _ => st
      end
  | CtrlC =>
      match main st with
      | Returned _ => st
      | _ => set_main (Returned Interrupted) st
      end
  end.

Definition run (schedule : list label) (st : wait_state) : wait_state :=
  fold_left step schedule st.

(** The state right after [Popen]; [monitor_ok] tells whether the recorder
    of the cancel monitor could be created. *)
Definition wait_start (monitor_ok : bool) : wait_state :=
  {| proc := Running; process_cancelled := false;
     monitor_listening := monitor_ok; main := InCommunicate |}.

Definition wait_outcome (monitor_ok : bool) (schedule : list label)
  : option exec_outcome :=
  match main (run schedule (wait_start monitor_ok)) with
  | Returned o => Some o
  | _ => None
  end.

(** *** process_message *)

(** What the world does once the request is sent: whether [Popen] raises,
    whether the cancel monitor starts, and the order of events after that. *)
Record exec_env : Type := {
  popen_ok : bool;
  monitor_ok : bool;
  schedule : list label
}.

(** The effects that leave the process: the executor started on a prompt
    built from the given history, and the history written to its file. *)
Inductive effect : Type :=
| Popen (history : list entry)
| SaveHistory (history : list entry).

Definition stop_result : string :=
  "Request cancelled by user command. Ready for new input.".

Definition voice_cancel_result : string :=
  "Processing cancelled by voice command. Ready for new input.".

Definition error_response : string :=
  "I'm sorry, but I encountered an error while processing your request. Please try again.".

Record reply : Type := {
  result : option string;
  after : assistant;
  effects : list effect
}.

(** [process_message(message)].  [None] stands for a call that has not
    returned by the end of the schedule. *)
Definition process_message (cfg : config) (env : exec_env)
    (self : assistant) (message : string) : option reply :=
  if check_for_stop_command message then
    Some {| result := Some stop_result; after := self; effects := [] |}
  else if negb (check_for_trigger_word cfg message) then
    Some {| result := None; after := self; effects := [] |}
  else if (len message <? MIN_TEXT_LENGTH cfg)%Z then
    Some {| result := None; after := self; effects := [] |}
  else
    let history :=
      (conversation_history self
       ++ [{| role := "user"; content := message |}])%list in
    let failed :=
      let history' :=
        (history ++ [{| role := "assistant"; content := error_response |}])%list in
      fun (started : list effect) =>
        Some {| result := Some error_response;
                after := with_history history' self;
                effects := (started ++ [SaveHistory history'])%list |} in
    if negb (popen_ok env) then failed []
    else
      match wait_outcome (monitor_ok env) (schedule env) with
      | None => None
      | Some VoiceCancelled =>
          Some {| result := Some voice_cancel_result;
                  after := with_history history self;
                  effects := [Popen history] |}
      | Some Interrupted =>
          Some {| result := None;
                  after := with_history history self;
                  effects := [Popen history] |}
      | Some (Completed returncode stdout stderr) =>
          if (returncode =? 0)%Z then
            let history' :=
              (history ++ [{| role := "assistant"; content := stdout |}])%list in
            Some {| result := Some stdout;
                    after := with_history history' self;
                    effects := [Popen history; SaveHistory history'] |}
          else failed [Popen history]
      end.

End VoiceToClaudeCode.

(** ** consolidated/voice_afk_listener.py: the process monitor *)

Module VoiceAfkListener.
Import PyStr.

Record interaction : Type := {
  timestamp : string;
  type_ : string;
  content : string
}.

(** The voice configuration record, as far as the listener writes it. *)
Record voice_config_t : Type := {
  stt_model : string;
  tts_voice : string;
  voice_triggers : string;
  last_update : string;
  voice_interactions : list interaction
}.

(** The process-status record. *)
Record process_info_t : Type := {
  status : string;
  current_iteration : Z;
  iterations : Z;
  current_phase : string;
  query : string
}.

(** Times are the floats of [time.time()], modelled as rationals. *)
Record listener : Type := {
  process_id : string;
  background_mode : bool;
  has_recorder : bool;
  has_client : bool;
  running : bool;
  voice_config : option voice_config_t;
  process_info : option process_info_t;
  last_command_time : Q;
  command_cooldown : Q
}.

(** [__init__] before [load_configs]. *)
Definition init (pid : string) (background : bool) (client : bool) : listener :=
  {| process_id := pid; background_mode := background;
     has_recorder := false; has_client := client; running := false;
     voice_config := None; process_info := None;
     last_command_time := 0%Q; command_cooldown := 3%Q |}.

(** The process log as [command_summarize] finds it. *)
Inductive log_file_t : Type :=
| LogMissing
| LogUnreadable
| LogTail (tail : string).

(** What one call reads from outside: the clock, the UTC stamp, the process
    file, the log file, and the two message builders, whose number
    formatting is kept abstract. *)
Record world : Type := {
  clock : Q;
  utcnow : string;
  process_file : option process_info_t;
  log_file : log_file_t;
  status_message : process_info_t -> string;
  summary_message : process_info_t -> string -> string
}.

Inductive command_kind : Type :=
| KStatus | KPause | KResume | KSummarize | KComplete.

(** What a call does that can be seen from outside: a handler entered, a
    text handed to the voice output, the configuration file rewritten. *)
Inductive event : Type :=
| Handler (k : command_kind)
| Spoken (text : string)
| SavedConfig.

Definition set_voice_config (vc : option voice_config_t) (self : listener)
  : listener :=
  {| process_id := process_id self; background_mode := background_mode self;
     has_recorder := has_recorder self; has_client := has_client self;
     running := running self; voice_config := vc;
     process_info := process_info self;
     last_command_time := last_command_time self;
     command_cooldown := command_cooldown self |}.

Definition set_process_info (pi : option process_info_t) (self : listener)
  : listener :=
  {| process_id := process_id self; background_mode := background_mode self;
     has_recorder := has_recorder self; has_client := has_client self;
     running := running self; voice_config := voice_config self;
     process_info := pi;
     last_command_time := last_command_time self;
     command_cooldown := command_cooldown self |}.

Definition set_last_command_time (t : Q) (self : listener) : listener :=
  {| process_id := process_id self; background_mode := background_mode self;
     has_recorder := has_recorder self; has_client := has_client self;
     running := running self; voice_config := voice_config self;
     process_info := process_info self;
     last_command_time := t;
     command_cooldown := command_cooldown self |}.

(** [add_interaction], with the [last_update] that [save_voice_config]
    sets before it writes. *)
Definition add_interaction (w : world) (self : listener)
    (interaction_type content : string) : listener * list event :=
  match voice_config self with
  | None => (self, [])
  | Some vc =>
      let vc' :=
        {| stt_model := stt_model vc; tts_voice := tts_voice vc;
           voice_triggers := voice_triggers vc;
           last_update := utcnow w;
           voice_interactions :=
             (voice_interactions vc
              ++ [{| timestamp := utcnow w; type_ := interaction_type;
                     content := content |}])%list |} in
      (set_voice_config (Some vc') self, [SavedConfig])
  end.

(** [speak(text)] *)
Definition speak (w : world) (self : listener) (text : string)
  : listener * list event :=
  if negb (truthy text) then (self, [])
  else
    let (self', ev) := add_interaction w self "tts_output" text in
    (self', (ev ++ [Spoken text])%list).

Definition command_status (w : world) (self : listener)
  : bool * listener * list event :=
  let self := set_process_info (process_file w) self in
  match process_info self with
  | None =>
      let (self', ev) :=
        speak w self "I'm sorry, I couldn't retrieve process information." in
      (false, self', Handler KStatus :: ev)
  | Some info =>
      let (self', ev) := speak w self (status_message w info) in
      (true, self', Handler KStatus :: ev)
  end.

Definition command_pause (w : world) (self : listener)
  : bool * listener * list event :=
  let (self', ev) :=
    speak w self "I've received your request to pause the process. This functionality is not yet implemented." in
  (true, self', Handler KPause :: ev).

Definition command_resume (w : world) (self : listener)
  : bool * listener * list event :=
  let (self', ev) :=
    speak w self "I've received your request to resume the process. This functionality is not yet implemented." in
  (true, self', Handler KResume :: ev).

Definition command_summarize (w : world) (self : listener)
  : bool * listener * list event :=
  let self := set_process_info (process_file w) self in
  match process_info self with
  | None =>
      let (self', ev) :=
        speak w self "I'm sorry, I couldn't retrieve process information." in
      (false, self', Handler KSummarize :: ev)
  | Some info =>
      match log_file w with
      | LogMissing =>
          let (self', ev) :=
            speak w self "I'm sorry, I couldn't find the process log file." in
          (false, self', Handler KSummarize :: ev)
      | LogUnreadable =>
          let (self', ev) :=
            speak w self "I'm sorry, I encountered an error while generating the summary." in
          (false, self', Handler KSummarize :: ev)
      | LogTail tail =>
          let (self', ev) := speak w self (summary_message w info tail) in
          (true, self', Handler KSummarize :: ev)
      end
  end.

Definition command_complete (w : world) (self : listener)
  : bool * listener * list event :=
  let (self', ev) :=
    speak w self "I've received your request to complete the process. This functionality is not yet implemented." in
  (true, self', Handler KComplete :: ev).

(** [any(word in command_lower for word in words)] *)
Definition any_in (words : list string) (command_lower : string) : bool :=
  existsb (fun word => contains word command_lower) words.

Definition status_words : list string :=
  ["status"; "progress"; "update"; "how"; "going"].
Definition pause_words : list string := ["pause"; "stop"; "wait"; "hold"].
Definition resume_words : list string := ["resume"; "continue"; "start"; "go"].
Definition summarize_words : list string :=
  ["summarize"; "summary"; "results"; "findings"].
Definition complete_words : list string := ["complete"; "finish"; "done"; "end"].

Definition unknown_reply : string :=
  "I'm sorry, I didn't understand that command. You can ask for status, pause, resume, summarize, or complete.".

(** [a < b] on times. *)
Definition Qltb (a b : Q) : bool := negb (Qle_bool b a).

(** [process_command(command_text)] *)
Definition process_command (w : world) (self : listener)
    (command_text : string) : bool * listener * list event :=
  if negb (truthy command_text) then (false, self, [])
  else
    let current_time := clock w in
    if Qltb (current_time - last_command_time self)%Q (command_cooldown self)
    then (false, self, [])
    else
      let self := set_last_command_time current_time self in
      let command_lower := lower command_text in
      if any_in status_words command_lower then command_status w self
      else if any_in pause_words command_lower then command_pause w self
      else if any_in resume_words command_lower then command_resume w self
      else if any_in summarize_words command_lower then command_summarize w self
      else if any_in complete_words command_lower then command_complete w self
      else
        let (self', ev) := speak w self unknown_reply in
        (false, self', ev).

End VoiceAfkListener.

(** ** Notions used by the statements *)

Module Notions.
Import PyStr.

(** Entry [i] of a selected range is dropped by the de-duplication: it has
    a successor in the range and is a substring of it. *)
Definition is_dropped (ctx : list string) (i : nat) : bool :=
  (i <? List.length ctx - 1) && contains (nth i ctx "") (nth (i + 1) ctx "").

(** The positions of a selected range that the de-duplication keeps. *)
Definition kept_indices (ctx : list string) : list nat :=
  filter (fun i => negb (is_dropped ctx i)) (seq 0 (List.length ctx)).

(** The bonus of a step table [(threshold, bonus)] at [n]: the bonus of the
    highest threshold that [n] exceeds, [0] when it exceeds none. *)
Fixpoint highest_crossed (table : list (Z * Z)) (n : Z) (best : option (Z * Z))
  : option (Z * Z) :=
  match table with
  | [] => best
  | (t, b) :: rest =>
      let best' :=
        if (t <? n)%Z then
          match best with
          | Some (t0, _) => if (t0 <? t)%Z then Some (t, b) else best
          | None => Some (t, b)
          end
        else best in
      highest_crossed rest n best'
  end.

Definition highest_bonus (table : list (Z * Z)) (n : Z) : Z :=
  match highest_crossed table n None with
  | Some (_, b) => b
  | None => 0%Z
  end.

Definition length_steps : list (Z * Z) := [(100, 5); (200, 10); (500, 20)]%Z.
Definition complexity_steps : list (Z * Z) := [(5, 5); (10, 10); (15, 15)]%Z.
Definition trigger_steps : list (Z * Z) := [(0, 5); (1, 10); (3, 15)]%Z.

(** The handler that the keyword chain of [process_command] selects for a
    command text, [None] for an unknown command. *)
Definition classify (command_text : string)
  : option VoiceAfkListener.command_kind :=
  let command_lower := lower command_text in
  if VoiceAfkListener.any_in VoiceAfkListener.status_words command_lower
  then Some VoiceAfkListener.KStatus
  else if VoiceAfkListener.any_in VoiceAfkListener.pause_words command_lower
  then Some VoiceAfkListener.KPause
  else if VoiceAfkListener.any_in VoiceAfkListener.resume_words command_lower
  then Some VoiceAfkListener.KResume
  else if VoiceAfkListener.any_in VoiceAfkListener.summarize_words command_lower
  then Some VoiceAfkListener.KSummarize
  else if VoiceAfkListener.any_in VoiceAfkListener.complete_words command_lower
  then Some VoiceAfkListener.KComplete
  else None.

(** The number of words that [split] finds in [s], [inword] telling whether
    a word is already open when [s] starts. *)
Fixpoint words_from (inword : bool) (s : string) : nat :=
  match s with
  | EmptyString => if inword then 1 else 0
  | String c s' =>
      if isspace c
      then (if inword then S (words_from false s') else words_from false s')
      else words_from true s'
  end.

(** [s * n] *)
Fixpoint replicate (n : nat) (s : string) : string :=
  match n with
  | O => EmptyString
  | S k => s ++ replicate k s
  end.

(** Every key of a trigger table occurs in its own list of variations. *)
Definition keys_in_own_variations (tv : list (string * list string)) : bool :=
  forallb (fun kv => mem (fst kv) (snd kv)) tv.

(** A listener right after start-up, with a fresh voice configuration, and
    a world whose clock reads [t]. *)
Definition sample_listener : VoiceAfkListener.listener :=
  VoiceAfkListener.set_voice_config
    (Some {| VoiceAfkListener.stt_model := "small.en";
             VoiceAfkListener.tts_voice := "nova";
             VoiceAfkListener.voice_triggers := "claude,cloud,assistant,hey,ok,voice";
             VoiceAfkListener.last_update := "2025-05-15T10:00:00Z";
             VoiceAfkListener.voice_interactions := [] |})
    (VoiceAfkListener.init "afk-1" false false).

Definition sample_world (t : Q) : VoiceAfkListener.world :=
  {| VoiceAfkListener.clock := t;
     VoiceAfkListener.utcnow := "2025-05-15T10:01:40Z";
     VoiceAfkListener.process_file := None;
     VoiceAfkListener.log_file := VoiceAfkListener.LogMissing;
     VoiceAfkListener.status_message := fun _ => "status";
     VoiceAfkListener.summary_message := fun _ _ => "summary" |}.

End Notions.

(** ** consolidated/voice_to_claude_code.py: callers and the playback monitor *)

Module AssistantLoop.
Import PyStr VoiceToClaudeCode.

(** *** main: the command-line overrides *)

(** The parsed arguments that reach the globals, and [--input]. *)
Record args : Type := {
  arg_min_length : option Z;
  arg_context_base : option Z;
  arg_context_max : option Z;
  arg_input : option string
}.

(** [if args.x: GLOBAL = args.x]: an absent argument and the value 0 both
    leave the global as it is. *)
Definition override (arg : option Z) (current : Z) : Z :=
  match arg with
  | Some v => if (v =? 0)%Z then current else v
  | None => current
  end.

Definition apply_args (a : args) (cfg : config) : config :=
  {| trigger_module := trigger_module cfg;
     CONTEXT_LENGTH_BASE := override (arg_context_base a) (CONTEXT_LENGTH_BASE cfg);
     CONTEXT_LENGTH_MAX := override (arg_context_max a) (CONTEXT_LENGTH_MAX cfg);
     MIN_TEXT_LENGTH := override (arg_min_length a) (MIN_TEXT_LENGTH cfg) |}.

(** *** main and conversation_loop: the initial input *)

(** [f"{list(TRIGGER_VARIATIONS.keys())[0]} {args.input}"]; both tables
    have a first key. *)
Definition initial_prompt (cfg : config) (input : string) : string :=
  hd "" (map fst (TRIGGER_VARIATIONS cfg)) ++ " " ++ input.




(** *** listen: a run of realtime updates *)

(** The recorder calls [on_realtime_update] once per interim transcript. *)
Fixpoint feed (cfg : config) (self : assistant) (texts : list string)
  : assistant * list (option string) :=
  match texts with
  | [] => (self, [])
  | text :: rest =>
      let (self1, line) := on_realtime_update cfg self text in
      let (self2, lines) := feed cfg self1 rest in
      (self2, line :: lines)
  end.

(** *** speak: the stop test of the playback monitor *)

Definition tts_stop_words : list string :=
  ["stop"; "cancel"; "halt"; "abort"; "quit"; "end"; "shut"; "terminate";
   "break"; "enough"; "no more"].

(** [is_stop_command(word)] of [speak]. *)
Definition tts_is_stop_command (word : string) : bool :=
  mem word tts_stop_words
  || existsb
       (fun stop =>
          startswith stop word
          || ((String.length stop <=? 4) && contains stop word
              && (startswith stop word
                  || contains ("-" ++ stop) word
                  || contains (" " ++ stop) word)))
       tts_stop_words.

(** Whether [cancel_callback(text)] of [speak] sets [_cancel_audio]. *)
Definition tts_cancel_detects (text : string) : bool :=
  truthy text && existsb tts_is_stop_command (split (lower text)).

End AssistantLoop.

(** ** consolidated/voice_afk_listener.py: the loops around process_command *)

Module ListenerLoop.
Import PyStr VoiceAfkListener.

(** [s.split(sep)] for a one-character separator: the pieces between the
    separators, empty ones included.  [cur] holds the current piece,
    reversed. *)
Fixpoint split_on_aux (sep : ascii) (s cur : string) : list string :=
  match s with
  | EmptyString => [rev cur]
  | String c s' =>
      if Ascii.eqb c sep then rev cur :: split_on_aux sep s' EmptyString
      else split_on_aux sep s' (String c cur)
  end.

Definition split_on (sep : ascii) (s : string) : list string :=
  split_on_aux sep s EmptyString.

(** The triggers of the voice configuration:
    [[t.strip().lower() for t in triggers_str.split(",")]]. *)
Definition configured_triggers (vc : voice_config_t) : list string :=
  map (fun t => lower (strip t)) (split_on "," (voice_triggers vc)).

(** [check_trigger_words(text)]; [None] stands for the error raised when
    there is no voice configuration to read. *)
Definition check_trigger_words (self : listener) (text : string)
  : option bool :=
  if negb (truthy text) then Some false
  else
    match voice_config self with
    | None => None
    | Some vc =>
        let text_lower := lower text in
        Some (existsb (fun trigger => contains trigger text_lower)
                      (configured_triggers vc))
    end.

(** [listen_for_command()]: [heard] is the argument of the recorder's
    callback, [None] when the wait times out. *)
Definition listen_for_command (w : world) (self : listener)
    (heard : option string) : option string * listener * list event :=
  if negb (has_recorder self) then (None, self, [])
  else
    match heard with
    | None => (None, self, [])
    | Some text =>
        let (self', ev) := add_interaction w self "voice_command" text in
        (Some text, self', ev)
    end.

(** One round of [passive_listen_loop] while [running]: [passive] is what
    the trigger recorder hands over ([None] on a timeout), [heard] what the
    command recorder hands over.  The three worlds are the ones read when
    the trigger is logged, when the command is logged and when it is
    processed.  [None] stands for the error that ends the loop. *)
Definition passive_round (w1 w2 w3 : world) (self : listener)
    (passive : option string) (heard : option string)
  : option (listener * list event) :=
  let text := match passive with
              | Some t => if truthy t then t else ""
              | None => ""
              end in
  match check_trigger_words self text with
  | None => None
  | Some false => Some (self, [])
  | Some true =>
      let (self1, ev1) := add_interaction w1 self "trigger_detected" text in
      let '(command, self2, ev2) := listen_for_command w2 self1 heard in
      match command with
      | Some c =>
          if truthy c then
            let '(_, self3, ev3) := process_command w3 self2 c in
            Some (self3, (ev1 ++ ev2 ++ ev3)%list)
          else Some (self2, (ev1 ++ ev2)%list)
      | None => Some (self2, (ev1 ++ ev2)%list)
      end
  end.

(** A run of calls of [process_command], each with the world it reads. *)
Fixpoint replay (calls : list (world * string)) (self : listener)
  : listener * list (bool * list event) :=
  match calls with
  | [] => (self, [])
  | (w, text) :: rest =>
      let '(b, self1, ev) := process_command w self text in
      let (self2, results) := replay rest self1 in
      (self2, (b, ev) :: results)
  end.

(** [check_process_health()].  [progress_message] builds the progress
    sentence, whose number formatting is kept abstract. *)
Definition check_process_health (progress_message : process_info_t -> string)
    (w : world) (self : listener) : listener * list event :=
  let previous_status :=
    match process_info self with Some i => status i | None => "" end in
  let previous_iteration :=
    match process_info self with Some i => current_iteration i | None => 0%Z end in
  let previous_phase :=
    match process_info self with Some i => current_phase i | None => "" end in
  let self := set_process_info (process_file w) self in
  match process_info self with
  | None => (self, [])
  | Some info =>
      let (self1, ev1) :=
        if negb (String.eqb (status info) previous_status) then
          if String.eqb (status info) "completed" then
            speak w self "Good news! The background process has completed successfully. You can ask me to summarize the results."
          else if String.eqb (status info) "failed" then
            speak w self "I'm sorry, but the background process has failed. Check the logs for more information."
          else (self, [])
        else (self, []) in
      let (self2, ev2) :=
        if (previous_iteration <? current_iteration info)%Z
           && (current_iteration info mod 2 =? 0)%Z
        then speak w self1 (progress_message info)
        else (self1, []) in
      let (self3, ev3) :=
        if negb (String.eqb (current_phase info) previous_phase)
           && truthy (current_phase info)
        then speak w self2
               ("The process has moved to a new phase: "
                ++ current_phase info ++ ".")
        else (self2, []) in
      (self3, (ev1 ++ ev2 ++ ev3)%list)
  end.

End ListenerLoop.

(** ** More notions used by the statements *)

Module MoreNotions.
Import PyStr.

(** Every character of [s] is whitespace. *)
Fixpoint allspace (s : string) : bool :=
  match s with
  | EmptyString => true
  | String c s' => isspace c && allspace s'
  end.

(** [s] starts with a character that is not whitespace. *)
Definition starts_solid (s : string) : bool :=
  match s with
  | EmptyString => false
  | String c _ => negb (isspace c)
  end.

(** The confidences that the scoring of the scored matcher can reach. *)
Definition in_range (c : Q) : Prop := (0 <= c)%Q /\ (c <= 9 # 10)%Q.

(** No character of [s] is whitespace. *)
Fixpoint nospace (s : string) : bool :=
  match s with
  | EmptyString => true
  | String c s' => negb (isspace c) && nospace s'
  end.

(** The texts handed to the voice output, in order. *)
Fixpoint spoken (ev : list VoiceAfkListener.event) : list string :=
  match ev with
  | [] => []
  | VoiceAfkListener.Spoken t :: rest => t :: spoken rest
  | _ :: rest => spoken rest
  end.

(** The log records of spoken texts. *)
Definition tts_records (w : VoiceAfkListener.world) (texts : list string)
  : list VoiceAfkListener.interaction :=
  map (fun t => {| VoiceAfkListener.timestamp := VoiceAfkListener.utcnow w;
                   VoiceAfkListener.type_ := "tts_output";
                   VoiceAfkListener.content := t |}) texts.

(** The interactions of a listener, none without a configuration. *)
Definition interactions (self : VoiceAfkListener.listener)
  : list VoiceAfkListener.interaction :=
  match VoiceAfkListener.voice_config self with
  | Some vc => VoiceAfkListener.voice_interactions vc
  | None => []
  end.

(** Whether a call did anything that can be seen from outside. *)
Definition answered (ev : list VoiceAfkListener.event) : bool :=
  match ev with
  | [] => false
  | _ :: _ => true
  end.

(** The clock readings of the answered calls of a run. *)
Fixpoint answered_times (calls : list (VoiceAfkListener.world * string))
    (results : list (bool * list VoiceAfkListener.event)) : list Q :=
  match calls, results with
  | (w, _) :: calls', (_, ev) :: results' =>
      if answered ev
      then VoiceAfkListener.clock w :: answered_times calls' results'
      else answered_times calls' results'
  | _, _ => []
  end.

(** Each reading of [ts] is at least [gap] after the one before it, the
    first at least [gap] after [start]. *)
Fixpoint spaced (gap start : Q) (ts : list Q) : Prop :=
  match ts with
  | [] => True
  | t :: rest => (gap <= t - start)%Q /\ spaced gap t rest
  end.

(** The line of a realtime update that announces a trigger. *)
Definition announces (line : option string) (text : string) : bool :=
  match line with
  | Some l => String.eqb l ("Listening: [TRIGGER DETECTED] " ++ text)
  | None => false
  end.

(** The number of updates of a run whose line announces a trigger. *)
Fixpoint announcements (lines : list (option string)) (texts : list string)
  : nat :=
  match lines, texts with
  | line :: lines', text :: texts' =>
      (if announces line text then 1 else 0) + announcements lines' texts'
  | _, _ => 0
  end.

(** The main thread is past [communicate()] only if the subprocess has
    ended. *)
Definition settled (st : VoiceToClaudeCode.wait_state) : Prop :=
  match VoiceToClaudeCode.main st with
  | VoiceToClaudeCode.InShutdown | VoiceToClaudeCode.AtCheck =>
      VoiceToClaudeCode.proc st <> VoiceToClaudeCode.Running
  | _ => True
  end.

(** The flag is clear and the main thread has not returned a cancellation. *)
Definition uncancelled (st : VoiceToClaudeCode.wait_state) : Prop :=
  VoiceToClaudeCode.process_cancelled st = false
  /\ VoiceToClaudeCode.main st
     <> VoiceToClaudeCode.Returned VoiceToClaudeCode.VoiceCancelled.

(** The executor starts recorded among the effects of a reply. *)
Fixpoint popens (effs : list VoiceToClaudeCode.effect)
  : list (list VoiceToClaudeCode.entry) :=
  match effs with
  | [] => []
  | VoiceToClaudeCode.Popen h :: rest => h :: popens rest
  | _ :: rest => popens rest
  end.


End MoreNotions.

(** * Properties *)

Import PyStr Notions.

(** ** Strings and lists *)

Lemma truthy_true_iff (s : string) : truthy s = true <-> s <> "".
Proof.
  destruct s; simpl; split; intro H.
  - discriminate.
  - exfalso. apply H. reflexivity.
  - discriminate.
  - reflexivity.
Qed.

Lemma string_app_assoc (a b c : string) : (a ++ b) ++ c = a ++ (b ++ c).
Proof.
  induction a as [|x a IH]; simpl; [reflexivity|]. rewrite IH. reflexivity.
Qed.

Lemma join_snoc (sep : string) (parts : list string) (x : string) :
  exists prefix, join sep (parts ++ [x])%list = prefix ++ x.
Proof.
  induction parts as [|p rest IH]; simpl.
  - exists "". reflexivity.
  - destruct IH as [q Hq].
    destruct (rest ++ [x])%list as [|y ys] eqn:E.
    + destruct rest; discriminate.
    + rewrite Hq. exists (p ++ sep ++ q).
      rewrite !string_app_assoc. reflexivity.
Qed.

Lemma filter_map_shift {A B : Type} (f : B -> bool) (g : A -> B) (l : list A) :
  filter f (map g l) = map g (filter (fun a => f (g a)) l).
Proof.
  induction l as [|a l IH]; simpl; [reflexivity|].
  destruct (f (g a)); simpl; rewrite IH; reflexivity.
Qed.

(** ** The assistant *)

Section Assistant.
Import VoiceToClaudeCode.

(** *** De-duplication of a selected range *)

Lemma is_dropped_head (e : string) (rest : list string) :
  is_dropped (e :: rest) 0
  = match rest with [] => false | next :: _ => contains e next end.
Proof.
  unfold is_dropped. destruct rest as [|n r]; simpl; reflexivity.
Qed.

Lemma is_dropped_tail (e : string) (rest : list string) (i : nat) :
  is_dropped (e :: rest) (S i) = is_dropped rest i.
Proof.
  unfold is_dropped. simpl List.length. simpl nth.
  replace (S (List.length rest) - 1) with (List.length rest) by lia.
  destruct rest as [|n r]; [reflexivity|].
  simpl List.length.
  replace (S (List.length r) - 1) with (List.length r) by lia.
  reflexivity.
Qed.

(** The loop keeps exactly the entries at the positions that are not
    dropped, in their order. *)
Lemma clean_context_kept (ctx : list string) :
  clean_context ctx
  = map (fun i => nth i ctx "") (kept_indices ctx).
Proof.
  unfold kept_indices.
  induction ctx as [|e rest IH]; [reflexivity|].
  simpl List.length. rewrite <- cons_seq, <- seq_shift.
  simpl filter. rewrite is_dropped_head.
  rewrite filter_map_shift.
  rewrite (filter_ext _ (fun i => negb (is_dropped rest i)))
    by (intro i; rewrite is_dropped_tail; reflexivity).
  simpl clean_context.
  destruct rest as [|next r].
  - reflexivity.
  - destruct (contains e next); simpl negb; cbv iota.
    + rewrite IH, map_map. reflexivity.
    + simpl map. rewrite IH, map_map. reflexivity.
Qed.

Lemma last_not_dropped (ctx : list string) :
  is_dropped ctx (List.length ctx - 1) = false.
Proof.
  unfold is_dropped. rewrite Nat.ltb_irrefl. reflexivity.
Qed.

Lemma kept_indices_in (ctx : list string) (i : nat) :
  In i (kept_indices ctx) <-> i < List.length ctx /\ is_dropped ctx i = false.
Proof.
  unfold kept_indices. rewrite filter_In, in_seq, negb_true_iff.
  split; intros [H1 H2]; split; auto; lia.
Qed.

Lemma clean_context_last (ctx : list string) :
  last (clean_context ctx) "" = last ctx "".
Proof.
  induction ctx as [|e rest IH]; [reflexivity|].
  simpl clean_context.
  destruct rest as [|next r]; [reflexivity|].
  destruct (contains e next).
  - rewrite IH. reflexivity.
  - change (last (e :: next :: r) "") with (last (next :: r) "").
    rewrite <- IH.
    destruct (clean_context (next :: r)) eqn:E.
    + simpl in E. destruct r; [discriminate|].
      destruct (contains next s); [|discriminate].
      exfalso. clear IH.
      assert (H : forall l, l <> [] -> clean_context l <> []).
      { induction l as [|a l IHl]; [congruence|]. intros _. simpl.
        destruct l as [|b l]; [discriminate|].
        destruct (contains a b); [apply IHl; discriminate | discriminate]. }
      apply (H (s :: r)); [discriminate | exact E].
    + reflexivity.
Qed.

(** *** The backward search for the most recent trigger entry *)

Section BackScan.

Variable check : string -> bool.

Lemma find_trigger_below_some (buf : list string) (n i : nat) :
  find_trigger_below check buf n = Some i ->
  i < n /\ check (nth i buf "") = true
  /\ forall j, i < j < n -> check (nth j buf "") = false.
Proof.
  induction n as [|k IH]; simpl; [discriminate|].
  destruct (check (nth k buf "")) eqn:E.
  - intro H. injection H as <-. repeat split; [lia | exact E | intros j Hj; lia].
  - intro H. destruct (IH H) as (H1 & H2 & H3).
    repeat split; [lia | exact H2 |].
    intros j Hj. destruct (Nat.eq_dec j k) as [->|Hne]; [exact E|].
    apply H3. lia.
Qed.

Lemma find_trigger_below_none (buf : list string) (n : nat) :
  find_trigger_below check buf n = None ->
  forall j, j < n -> check (nth j buf "") = false.
Proof.
  induction n as [|k IH]; simpl; intros H j Hj; [lia|].
  destruct (check (nth k buf "")) eqn:E; [discriminate|].
  destruct (Nat.eq_dec j k) as [->|Hne]; [exact E|].
  apply IH; [exact H | lia].
Qed.

(** The search returns the most recent matching position whenever there
    is one. *)
Lemma find_trigger_below_most_recent (buf : list string) (n i : nat) :
  i < n -> check (nth i buf "") = true ->
  (forall j, i < j < n -> check (nth j buf "") = false) ->
  find_trigger_below check buf n = Some i.
Proof.
  intros Hi Hc Hlater.
  destruct (find_trigger_below check buf n) as [k|] eqn:E.
  - destruct (find_trigger_below_some _ _ _ E) as (Hk & Hck & Hkl).
    destruct (Nat.lt_trichotomy i k) as [Hlt | [-> | Hgt]].
    + rewrite Hlater in Hck by lia. discriminate.
    + reflexivity.
    + rewrite Hkl in Hc by lia. discriminate.
  - rewrite (find_trigger_below_none _ _ E i Hi) in Hc. discriminate.
Qed.

Lemma find_trigger_below_no_match (buf : list string) (n : nat) :
  (forall j, j < n -> check (nth j buf "") = false) ->
  find_trigger_below check buf n = None.
Proof.
  intro H.
  destruct (find_trigger_below check buf n) as [k|] eqn:E;
    [|reflexivity].
  destruct (find_trigger_below_some _ _ _ E) as (Hk & Hck & _).
  rewrite H in Hck by exact Hk. discriminate.
Qed.

End BackScan.

(** C1, as amended.  For a final transcript that is not empty and does not
    itself match a trigger: when the most recent buffer entry that matches a
    trigger lies within the last 5 entries, the command is the de-duplicated
    entries from that entry onward, joined with the final text; when it lies
    further back, or no entry matches, the command is the final text. *)
Theorem back_scan_finalization :
  forall (check : string -> bool) (buf : list string) (text : string),
    text <> "" ->
    check text = false ->
    (forall i,
        i < List.length buf ->
        check (nth i buf "") = true ->
        (forall j, i < j < List.length buf -> check (nth j buf "") = false) ->
        (List.length buf - i <= 5 ->
         callback check buf text
         = join " " (clean_context (skipn i buf) ++ [text])%list)
        /\ (5 < List.length buf - i ->
            callback check buf text = text))
    /\ ((forall i, i < List.length buf -> check (nth i buf "") = false) ->
        callback check buf text = text).
Proof.
  intros check buf text Htext Hcheck.
  apply truthy_true_iff in Htext.
  unfold callback. rewrite Htext, Hcheck. simpl negb.
  split.
  - intros i Hi Hc Hlater.
    destruct buf as [|b0 buf']; [simpl in Hi; lia|].
    cbv beta iota. simpl andb.
    rewrite (find_trigger_below_most_recent check _ _ i Hi Hc Hlater).
    split; intro Hd.
    + apply Nat.leb_le in Hd. rewrite Hd. reflexivity.
    + apply Nat.leb_gt in Hd. rewrite Hd. reflexivity.
  - intro Hnone.
    destruct buf as [|b0 buf']; [reflexivity|].
    cbv beta iota. simpl andb.
    rewrite (find_trigger_below_no_match check _ _ Hnone). reflexivity.
Qed.

(** The spec's example: the buffer ["hey"; "friend can you"; "help me write"]
    and the final text "a function". *)
Lemma back_scan_finalization_witness :
  callback TriggerWords.contains_trigger_word
    ["hey"; "friend can you"; "help me write"] "a function"
  = "help me write a function".
Proof.
  destruct (back_scan_finalization TriggerWords.contains_trigger_word
              ["hey"; "friend can you"; "help me write"] "a function")
    as [Hfound _].
  - discriminate.
  - vm_compute. reflexivity.
  - destruct (Hfound 2) as [Hnear _].
    + simpl. lia.
    + vm_compute. reflexivity.
    + simpl. intros j Hj. lia.
    + rewrite Hnear; [reflexivity | simpl; lia].
Defined.

(** C1, as stated, fails on an empty final transcript: the entry that
    matches a trigger is the last one of the buffer, yet the command is the
    empty text and not the buffer entry joined with the final text. *)
Lemma back_scan_empty_final_text :
  TriggerWords.contains_trigger_word "" = false
  /\ TriggerWords.contains_trigger_word "hey friend can you help" = true
  /\ join " " (clean_context (skipn 0 ["hey friend can you help"]) ++ [""])%list
     = "hey friend can you help "
  /\ callback TriggerWords.contains_trigger_word
       ["hey friend can you help"] ""
     = "".
Proof. vm_compute. repeat split. Qed.

(** C10, as amended.  The de-duplication of a selected range keeps exactly
    the entries that are not a substring of their immediate successor; so
    the last selected entry is kept, the command ends with the final text,
    and of an entry repeated at two positions that are not adjacent, each
    occurrence is kept unless it is a substring of its own successor. *)
Theorem dedup_adjacent_successor_only :
  forall (check : string -> bool) (buf ctx : list string) (text : string),
    clean_context ctx
    = map (fun i => nth i ctx "") (kept_indices ctx)
    /\ (forall i,
           In i (kept_indices ctx)
           <-> i < List.length ctx
               /\ (i + 1 < List.length ctx ->
                   contains (nth i ctx "") (nth (i + 1) ctx "") = false))
    /\ (ctx <> [] ->
        In (List.length ctx - 1) (kept_indices ctx)
        /\ last (clean_context ctx) "" = last ctx "")
    /\ (exists prefix,
           callback check buf text = prefix ++ text)
    /\ (forall i j,
           i + 1 < j -> j < List.length ctx ->
           nth i ctx "" = nth j ctx "" ->
           contains (nth i ctx "") (nth (i + 1) ctx "") = false ->
           (j + 1 < List.length ctx ->
            contains (nth j ctx "") (nth (j + 1) ctx "") = false) ->
           In i (kept_indices ctx) /\ In j (kept_indices ctx)).
Proof.
  intros check buf ctx text.
  assert (Hkept : forall i,
             In i (kept_indices ctx)
             <-> i < List.length ctx
                 /\ (i + 1 < List.length ctx ->
                     contains (nth i ctx "") (nth (i + 1) ctx "") = false)).
  { intro i. rewrite kept_indices_in. unfold is_dropped.
    split; intros [Hi Hd]; split; try exact Hi.
    - intro Hs. apply andb_false_iff in Hd. destruct Hd as [Hd|Hd]; [|exact Hd].
      apply Nat.ltb_ge in Hd. lia.
    - destruct (i <? List.length ctx - 1) eqn:E; [|reflexivity].
      apply Nat.ltb_lt in E. simpl. apply Hd. lia. }
  split; [apply clean_context_kept|].
  split; [exact Hkept|].
  split; [|split].
  - intro Hne. split; [|apply clean_context_last].
    apply kept_indices_in. split; [|apply last_not_dropped].
    destruct ctx; [congruence | simpl; lia].
  - unfold callback.
    destruct (truthy text) eqn:Ht.
    + destruct (negb (check text)
                && match buf with [] => false | _ :: _ => true end);
        [|exists ""; reflexivity].
      destruct (find_trigger_below check buf (List.length buf))
        as [k|]; [|exists ""; reflexivity].
      destruct (List.length buf - k <=? 5); [|exists ""; reflexivity].
      apply join_snoc.
    + exists "". destruct text; [reflexivity | discriminate].
  - intros i j Hij Hj Heq Hi1 Hj1.
    split; apply Hkept; split; try lia; auto.
Qed.

Lemma dedup_adjacent_successor_only_witness :
  In 0 (kept_indices ["go"; "stop"; "go"])
  /\ In 2 (kept_indices ["go"; "stop"; "go"]).
Proof.
  destruct (dedup_adjacent_successor_only TriggerWords.contains_trigger_word
              [] ["go"; "stop"; "go"] "")
    as (_ & _ & _ & _ & Hrep).
  apply (Hrep 0 2).
  - lia.
  - simpl. lia.
  - reflexivity.
  - vm_compute. reflexivity.
  - simpl. lia.
Defined.

(** C10, as stated, fails: in the range selected below the entry "go" stands
    at positions 1 and 3, which are not adjacent, and its first occurrence
    is dropped because it is a substring of "let's go". *)
Lemma dedup_drops_repeated_entry :
  nth 1 ["hey friend go"; "go"; "let's go"; "go"] ""
  = nth 3 ["hey friend go"; "go"; "let's go"; "go"] ""
  /\ existsb (Nat.eqb 1) (kept_indices ["hey friend go"; "go"; "let's go"; "go"])
     = false
  /\ clean_context ["hey friend go"; "go"; "let's go"; "go"]
     = ["hey friend go"; "let's go"; "go"]
  /\ callback TriggerWords.contains_trigger_word
       ["hey friend go"; "go"; "let's go"; "go"] "now"
     = "hey friend go let's go go now".
Proof. vm_compute. repeat split. Qed.

(** *** Dynamic context capacity *)

Lemma length_bonus_steps (n : Z) :
  highest_bonus length_steps n
  = (if 500 <? n then 20 else if 200 <? n then 10
     else if 100 <? n then 5 else 0)%Z.
Proof.
  unfold highest_bonus, length_steps. simpl.
  destruct (Z.ltb_spec 100 n), (Z.ltb_spec 200 n), (Z.ltb_spec 500 n);
    simpl; try reflexivity; lia.
Qed.

Lemma complexity_bonus_steps (n : Z) :
  highest_bonus complexity_steps n
  = (if 15 <? n then 15 else if 10 <? n then 10
     else if 5 <? n then 5 else 0)%Z.
Proof.
  unfold highest_bonus, complexity_steps. simpl.
  destruct (Z.ltb_spec 5 n), (Z.ltb_spec 10 n), (Z.ltb_spec 15 n);
    simpl; try reflexivity; lia.
Qed.

Lemma trigger_bonus_steps (n : Z) :
  highest_bonus trigger_steps n
  = (if 3 <? n then 15 else if 1 <? n then 10
     else if 0 <? n then 5 else 0)%Z.
Proof.
  unfold highest_bonus, trigger_steps. simpl.
  destruct (Z.ltb_spec 0 n), (Z.ltb_spec 1 n), (Z.ltb_spec 3 n);
    simpl; try reflexivity; lia.
Qed.

Lemma highest_bonus_range (n : Z) :
  (0 <= highest_bonus length_steps n <= 20
   /\ 0 <= highest_bonus complexity_steps n <= 15
   /\ 0 <= highest_bonus trigger_steps n <= 15)%Z.
Proof.
  rewrite length_bonus_steps, complexity_bonus_steps, trigger_bonus_steps.
  repeat match goal with |- context [(?a <? ?b)%Z] => destruct (a <? b)%Z end;
    lia.
Qed.

Lemma count_all_empty_text (cfg : config) :
  count_all (ALL_TRIGGERS cfg) "" = 0%Z.
Proof.
  unfold ALL_TRIGGERS.
  destruct (trigger_module cfg); vm_compute; reflexivity.
Qed.

(** The capacity is the base plus one bonus per family, capped. *)
Lemma get_dynamic_context_length_sum (cfg : config)
    (text : string) :
  (CONTEXT_LENGTH_BASE cfg
   <= CONTEXT_LENGTH_MAX cfg)%Z ->
  get_dynamic_context_length cfg text
  = Z.min
      (CONTEXT_LENGTH_BASE cfg
       + highest_bonus length_steps (len text)
       + highest_bonus complexity_steps
           (count_all complexity_markers text)
       + highest_bonus trigger_steps
           (count_all (ALL_TRIGGERS cfg)
                                        (lower text)))%Z
      (CONTEXT_LENGTH_MAX cfg).
Proof.
  intro Hle.
  rewrite length_bonus_steps, complexity_bonus_steps, trigger_bonus_steps.
  unfold get_dynamic_context_length.
  destruct text as [|c text'].
  - simpl truthy. simpl negb. cbv iota.
    change (lower "") with "". rewrite count_all_empty_text.
    change (len "") with 0%Z.
    change (count_all complexity_markers "")
      with 0%Z.
    simpl. lia.
  - simpl truthy. simpl negb. cbv iota zeta.
    repeat match goal with |- context [(?a <? ?b)%Z] => destruct (a <? b)%Z end;
      f_equal; lia.
Qed.

(** C3.  The capacity lies between the base and the maximum; each bonus
    family adds the bonus of the highest threshold crossed and nothing for
    the lower ones; a text of 600 characters with more than 15 markers and
    more than 3 trigger occurrences gets base + 20 + 15 + 15, capped. *)
Theorem dynamic_context_capacity :
  forall (cfg : config) (text : string),
    (CONTEXT_LENGTH_BASE cfg
     <= CONTEXT_LENGTH_MAX cfg)%Z ->
    (CONTEXT_LENGTH_BASE cfg
     <= get_dynamic_context_length cfg text
     <= CONTEXT_LENGTH_MAX cfg)%Z
    /\ get_dynamic_context_length cfg text
       = Z.min
           (CONTEXT_LENGTH_BASE cfg
            + highest_bonus length_steps (len text)
            + highest_bonus complexity_steps
                (count_all
                   complexity_markers text)
            + highest_bonus trigger_steps
                (count_all
                   (ALL_TRIGGERS cfg) (lower text)))%Z
           (CONTEXT_LENGTH_MAX cfg)
    /\ (len text = 600%Z ->
        (15 < count_all
                complexity_markers text)%Z ->
        (3 < count_all
               (ALL_TRIGGERS cfg) (lower text))%Z ->
        get_dynamic_context_length cfg text
        = Z.min (CONTEXT_LENGTH_BASE cfg + 20 + 15 + 15)
                (CONTEXT_LENGTH_MAX cfg)).
Proof.
  intros cfg text Hle.
  pose proof (get_dynamic_context_length_sum cfg text Hle) as Hsum.
  split; [|split].
  - rewrite Hsum.
    pose proof (highest_bonus_range (len text)) as (H1 & _ & _).
    pose proof (highest_bonus_range
                  (count_all
                     complexity_markers text)) as (_ & H2 & _).
    pose proof (highest_bonus_range
                  (count_all
                     (ALL_TRIGGERS cfg) (lower text)))
      as (_ & _ & H3).
    lia.
  - exact Hsum.
  - intros Hlen Hcx Htr. rewrite Hsum.
    rewrite length_bonus_steps, complexity_bonus_steps, trigger_bonus_steps.
    rewrite Hlen.
    apply Z.ltb_lt in Hcx, Htr. rewrite Hcx, Htr. reflexivity.
Qed.

Lemma dynamic_context_capacity_witness :
  get_dynamic_context_length default_config
    (replicate 40 "friend, coding.")
  = 80%Z.
Proof.
  destruct (dynamic_context_capacity default_config
              (replicate 40 "friend, coding."))
    as (_ & _ & H600).
  - vm_compute. discriminate.
  - rewrite H600.
    + reflexivity.
    + vm_compute. reflexivity.
    + vm_compute. reflexivity.
    + vm_compute. reflexivity.
Defined.

(** *** Stop commands *)

(** C2.  A message that the stop-command test accepts makes
    [process_message] return the cancellation result at once, whatever the
    trigger test says: nothing else is touched and the executor is not
    started.  The four sample utterances classify as the spec lists them. *)
Theorem stop_command_short_circuits :
  forall (cfg : config) (env : exec_env)
         (self : assistant) (message : string),
    check_for_stop_command message = true ->
    process_message cfg env self message
    = Some {| result := Some stop_result;
              after := self;
              effects := [] |}
    /\ check_for_stop_command "stop" = true
    /\ check_for_stop_command "stop the process" = true
    /\ check_for_stop_command "stop, can you tell me about X"
       = false
    /\ check_for_stop_command "I want to stop now" = true
    /\ existsb (fun phrase => contains phrase (lower "I want to stop now"))
               definite_stop_phrases = true.
Proof.
  intros cfg env self message Hstop.
  split.
  - unfold process_message. rewrite Hstop. reflexivity.
  - vm_compute. repeat split.
Qed.

(** "stop the process" holds no trigger word, and is cancelled all the
    same. *)
Lemma stop_command_short_circuits_witness :
  check_for_trigger_word default_config
    "stop the process" = false
  /\ process_message default_config
       {| popen_ok := true;
          monitor_ok := true;
          schedule := [] |}
       {| conversation_history := [];
          context_buffer := [];
          context_text := "";
          trigger_already_displayed := false |}
       "stop the process"
     = Some {| result := Some stop_result;
               after :=
                 {| conversation_history := [];
                    context_buffer := [];
                    context_text := "";
                    trigger_already_displayed := false |};
               effects := [] |}.
Proof.
  split.
  - vm_compute. reflexivity.
  - apply stop_command_short_circuits. vm_compute. reflexivity.
Defined.

(** *** The wait for the executor *)

Lemma run_app (s1 s2 : list label)
    (st : wait_state) :
  run (s1 ++ s2) st
  = run s2 (run s1 st).
Proof. unfold run. apply fold_left_app. Qed.







(** Whatever the message and the history, both ways of cancelling a running
    request leave the user entry of that request in the history. *)
Lemma cancelled_outcome_history (cfg : config)
    (env : exec_env) (self : assistant)
    (message : string) (r : reply) :
  check_for_stop_command message = false ->
  check_for_trigger_word cfg message = true ->
  (MIN_TEXT_LENGTH cfg <= len message)%Z ->
  popen_ok env = true ->
  wait_outcome (monitor_ok env)
    (schedule env) = Some VoiceCancelled
  \/ wait_outcome (monitor_ok env)
       (schedule env) = Some Interrupted ->
  process_message cfg env self message = Some r ->
  conversation_history (after r)
  = (conversation_history self
     ++ [{| role := "user";
            content := message |}])%list.
Proof.
  intros Hstop Htrig Hlen Hpopen Ho.
  apply Z.ltb_ge in Hlen.
  unfold process_message.
  rewrite Hstop, Htrig, Hlen, Hpopen. simpl negb. cbv iota.
  destruct Ho as [Ho | Ho]; rewrite Ho; intros [= <-]; reflexivity.
Qed.

(** C8.  A request cancelled by voice while the executor runs, or by Ctrl+C,
    returns the neutral result, or none; the history keeps the user entry of
    the cancelled request. *)
Theorem cancelled_request_stays_in_history :
  process_message default_config
    {| popen_ok := true;
       monitor_ok := true;
       schedule :=
         [Heard "stop";
          ProcExit (-2) "" "";
          MainStep; MainStep;
          MainStep] |}
    {| conversation_history := [];
       context_buffer := [];
       context_text := "";
       trigger_already_displayed := false |}
    "hey friend write a script"
  = Some {| result :=
              Some voice_cancel_result;
            after :=
              {| conversation_history :=
                   [{| role := "user";
                       content :=
                         "hey friend write a script" |}];
                 context_buffer := [];
                 context_text := "";
                 trigger_already_displayed := false |};
            effects :=
              [Popen
                 [{| role := "user";
                     content :=
                       "hey friend write a script" |}]] |}
  /\ process_message default_config
       {| popen_ok := true;
          monitor_ok := true;
          schedule := [CtrlC] |}
       {| conversation_history := [];
          context_buffer := [];
          context_text := "";
          trigger_already_displayed := false |}
       "hey friend write a script"
     = Some {| result := None;
               after :=
                 {| conversation_history :=
                      [{| role := "user";
                          content :=
                            "hey friend write a script" |}];
                    context_buffer := [];
                    context_text := "";
                    trigger_already_displayed := false |};
               effects :=
                 [Popen
                    [{| role := "user";
                        content :=
                          "hey friend write a script" |}]] |}.
Proof. vm_compute. split; reflexivity. Qed.

End Assistant.

(** ** The process monitor *)

Section Monitor.
Import VoiceAfkListener.

(** *** Cooldown and dispatch *)

Lemma Qltb_true (a b : Q) : (a < b)%Q -> Qltb a b = true.
Proof.
  intro H. unfold Qltb.
  destruct (Qle_bool b a) eqn:E; [|reflexivity].
  apply Qle_bool_iff in E. exfalso. exact (Qlt_not_le _ _ H E).
Qed.

Lemma Qltb_false (a b : Q) : (b <= a)%Q -> Qltb a b = false.
Proof.
  intro H. unfold Qltb.
  apply Qle_bool_iff in H. rewrite H. reflexivity.
Qed.

(** [speak] touches the voice configuration only. *)
Lemma speak_frame (w : world) (self : listener)
    (text : string) :
  last_command_time (fst (speak w self text))
  = last_command_time self
  /\ command_cooldown (fst (speak w self text))
     = command_cooldown self.
Proof.
  unfold speak, add_interaction.
  destruct (truthy text); simpl; [|split; reflexivity].
  destruct (voice_config self); simpl; split; reflexivity.
Qed.

Ltac handler_shape w self text :=
  pose proof (speak_frame w self text) as [? ?];
  destruct (speak w self text) as [? ?];
  do 3 eexists; split; [reflexivity|]; simpl in *; split; assumption.

(** Each handler announces itself first and leaves the cooldown fields
    alone. *)
Lemma handler_shape_status (w : world)
    (self : listener) :
  exists b self' ev,
    command_status w self
    = (b, self', Handler KStatus :: ev)
    /\ last_command_time self'
       = last_command_time self
    /\ command_cooldown self'
       = command_cooldown self.
Proof.
  unfold command_status.
  set (s := set_process_info _ self).
  destruct (process_info s) as [info|].
  - handler_shape w s (status_message w info).
  - handler_shape w s "I'm sorry, I couldn't retrieve process information.".
Qed.

Lemma handler_shape_pause (w : world)
    (self : listener) :
  exists b self' ev,
    command_pause w self
    = (b, self', Handler KPause :: ev)
    /\ last_command_time self'
       = last_command_time self
    /\ command_cooldown self'
       = command_cooldown self.
Proof.
  unfold command_pause.
  match goal with |- context [speak w self ?t] =>
    handler_shape w self t end.
Qed.

Lemma handler_shape_resume (w : world)
    (self : listener) :
  exists b self' ev,
    command_resume w self
    = (b, self', Handler KResume :: ev)
    /\ last_command_time self'
       = last_command_time self
    /\ command_cooldown self'
       = command_cooldown self.
Proof.
  unfold command_resume.
  match goal with |- context [speak w self ?t] =>
    handler_shape w self t end.
Qed.

Lemma handler_shape_summarize (w : world)
    (self : listener) :
  exists b self' ev,
    command_summarize w self
    = (b, self', Handler KSummarize :: ev)
    /\ last_command_time self'
       = last_command_time self
    /\ command_cooldown self'
       = command_cooldown self.
Proof.
  unfold command_summarize.
  set (s := set_process_info _ self).
  destruct (process_info s) as [info|].
  - destruct (log_file w) as [| |tail].
    + handler_shape w s "I'm sorry, I couldn't find the process log file.".
    + handler_shape w s "I'm sorry, I encountered an error while generating the summary.".
    + handler_shape w s (summary_message w info tail).
  - handler_shape w s "I'm sorry, I couldn't retrieve process information.".
Qed.

Lemma handler_shape_complete (w : world)
    (self : listener) :
  exists b self' ev,
    command_complete w self
    = (b, self', Handler KComplete :: ev)
    /\ last_command_time self'
       = last_command_time self
    /\ command_cooldown self'
       = command_cooldown self.
Proof.
  unfold command_complete.
  match goal with |- context [speak w self ?t] =>
    handler_shape w self t end.
Qed.

(** Inside the cooldown window a command is skipped. *)
Lemma process_command_skipped (w : world)
    (self : listener) (text : string) :
  (clock w - last_command_time self
   < command_cooldown self)%Q ->
  process_command w self text = (false, self, []).
Proof.
  intro H. unfold process_command.
  destruct (negb (truthy text)); [reflexivity|].
  rewrite (Qltb_true _ _ H). reflexivity.
Qed.




(** *** Unknown commands *)

(** C7, as amended.  A command text that is not empty, holds no keyword and
    arrives outside the cooldown window gets the apology and [False]; the
    call sets the time of the last command to the time of the call and logs
    the apology in the voice configuration, and leaves the other fields as
    they were.  Inside the window the call returns [False] and changes
    nothing. *)
Theorem unknown_command_outcome :
  forall (w : world) (self : listener)
         (text : string),
    text <> "" ->
    classify text = None ->
    ((command_cooldown self
      <= clock w - last_command_time self)%Q ->
     process_command w self text
     = (false,
        {| process_id := process_id self;
           background_mode := background_mode self;
           has_recorder := has_recorder self;
           has_client := has_client self;
           running := running self;
           voice_config :=
             match voice_config self with
             | None => None
             | Some vc =>
                 Some {| stt_model := stt_model vc;
                         tts_voice := tts_voice vc;
                         voice_triggers :=
                           voice_triggers vc;
                         last_update := utcnow w;
                         voice_interactions :=
                           (voice_interactions vc
                            ++ [{| timestamp :=
                                     utcnow w;
                                   type_ := "tts_output";
                                   content :=
                                     unknown_reply |}])%list |}
             end;
           process_info := process_info self;
           last_command_time := clock w;
           command_cooldown :=
             command_cooldown self |},
        (match voice_config self with
         | None => []
         | Some _ => [SavedConfig]
         end ++ [Spoken unknown_reply])%list))
    /\ ((clock w - last_command_time self
         < command_cooldown self)%Q ->
        process_command w self text = (false, self, [])).
Proof.
  intros w self text Htext Hk.
  split; [|apply process_command_skipped].
  intro Hcool.
  apply truthy_true_iff in Htext.
  unfold process_command.
  rewrite Htext. simpl negb. cbv iota.
  rewrite (Qltb_false _ _ Hcool). cbv beta zeta iota.
  unfold classify in Hk.
  destruct (any_in status_words (lower text));
    [discriminate|].
  destruct (any_in pause_words (lower text));
    [discriminate|].
  destruct (any_in resume_words (lower text));
    [discriminate|].
  destruct (any_in summarize_words (lower text));
    [discriminate|].
  destruct (any_in complete_words (lower text));
    [discriminate|].
  unfold speak, add_interaction,
    set_voice_config, set_last_command_time.
  simpl.
  destruct (voice_config self); reflexivity.
Qed.

(** "xyz" at 100 s gets the apology and moves the time of the last command;
    "xyz" at 1 s falls inside the window of a fresh listener. *)
Lemma unknown_command_outcome_witness :
  fst (fst (process_command (sample_world 100) sample_listener "xyz")) = false
  /\ last_command_time
       (snd (fst (process_command (sample_world 100) sample_listener "xyz")))
     = 100%Q
  /\ snd (process_command (sample_world 100) sample_listener "xyz")
     = [SavedConfig; Spoken unknown_reply]
  /\ process_command (sample_world 1) sample_listener "xyz"
     = (false, sample_listener, []).
Proof.
  destruct (unknown_command_outcome (sample_world 100) sample_listener "xyz")
    as [Hout _].
  - discriminate.
  - vm_compute. reflexivity.
  - destruct (unknown_command_outcome (sample_world 1) sample_listener "xyz")
      as [_ Hin].
    + discriminate.
    + vm_compute. reflexivity.
    + rewrite Hout by (vm_compute; discriminate).
      rewrite Hin by (vm_compute; reflexivity).
      repeat split.
Defined.

(** C7, as stated, fails: "xyz" holds no keyword, and the call at 100 s
    moves the time of the last command from 0 to 100 and adds an entry to
    the voice interactions. *)
Lemma unknown_command_changes_state :
  classify "xyz" = None
  /\ last_command_time sample_listener = 0%Q
  /\ last_command_time
       (snd (fst (process_command (sample_world 100)
                    sample_listener "xyz")))
     = 100%Q
  /\ option_map (fun vc => List.length (voice_interactions vc))
       (voice_config sample_listener) = Some 0
  /\ option_map (fun vc => List.length (voice_interactions vc))
       (voice_config
          (snd (fst (process_command (sample_world 100)
                       sample_listener "xyz")))) = Some 1
  /\ fst (fst (process_command (sample_world 100)
                 sample_listener "xyz")) = false.
Proof. vm_compute. repeat split. Qed.

End Monitor.

(** ** The trigger vocabulary *)

Lemma keys_in_flatten (tv : list (string * list string)) (k : string) :
  In k (map fst tv) -> In k (TriggerWords.flatten tv).
Proof.
  unfold TriggerWords.flatten.
  induction tv as [|[key vs] tv IH]; simpl; [tauto|].
  intros [<- | H]; [left; reflexivity|].
  right. apply in_or_app. right. apply IH. exact H.
Qed.

(** C9, as amended.  Every key of a trigger table is a member of the flat
    vocabulary built from it, which is what the matchers scan.  In
    lib/voice/trigger_words.py every key is also in its own variation list;
    in consolidated/trigger_words.py only "friend" and "calmhive" are. *)
Theorem canonical_keys_in_vocabulary :
  forall (tv : list (string * list string)) (k : string),
    In k (map fst tv) ->
    In k (TriggerWords.flatten tv)
    /\ keys_in_own_variations EnhancedTriggerWords.TRIGGER_VARIATIONS = true
    /\ forallb (fun key => mem key EnhancedTriggerWords.ALL_TRIGGERS)
               (map fst EnhancedTriggerWords.TRIGGER_VARIATIONS) = true
    /\ map fst (filter (fun kv => mem (fst kv) (snd kv))
                       TriggerWords.TRIGGER_VARIATIONS)
       = ["friend"; "calmhive"].
Proof.
  intros tv k Hk. split; [apply keys_in_flatten; exact Hk|].
  vm_compute. repeat split.
Qed.

Lemma canonical_keys_in_vocabulary_witness :
  In "code" TriggerWords.ALL_TRIGGERS.
Proof.
  apply (canonical_keys_in_vocabulary TriggerWords.TRIGGER_VARIATIONS "code").
  simpl. right. left. reflexivity.
Defined.

(** C9, as stated, fails in consolidated/trigger_words.py: the key "code" is
    not in its own variation list. *)
Lemma code_key_not_in_own_variations :
  keys_in_own_variations TriggerWords.TRIGGER_VARIATIONS = false
  /\ nth 1 TriggerWords.TRIGGER_VARIATIONS ("", [])
     = ("code",
        ["code helper"; "code buddy"; "code friend"; "coding"; "let's code";
         "start coding"; "code with me"; "code assistant"])
  /\ mem "code"
       ["code helper"; "code buddy"; "code friend"; "coding"; "let's code";
        "start coding"; "code with me"; "code assistant"]
     = false.
Proof. vm_compute. repeat split. Qed.

(** ** Bare trigger words *)

Lemma split_aux_words (s cur : string) :
  List.length (split_aux s cur) = words_from (truthy cur) s.
Proof.
  revert cur. induction s as [|c s IH]; intro cur; simpl.
  - destruct cur; reflexivity.
  - destruct (isspace c).
    + destruct cur; simpl; rewrite IH; reflexivity.
    + rewrite IH. reflexivity.
Qed.

Lemma split_words (s : string) : List.length (split s) = words_from false s.
Proof. unfold split. rewrite split_aux_words. reflexivity. Qed.

Lemma words_from_open (s : string) :
  words_from false s <= words_from true s /\ 1 <= words_from true s.
Proof.
  induction s as [|c s IH]; simpl; [lia|].
  destruct (isspace c); lia.
Qed.

Lemma words_from_tail (b : bool) (c : ascii) (s : string) :
  words_from false s <= words_from b (String c s).
Proof.
  simpl. pose proof (words_from_open s).
  destruct (isspace c), b; lia.
Qed.

Lemma words_from_prefix (p : string) :
  forall (b : bool) (s : string),
    startswith p s = true -> words_from b p <= words_from b s.
Proof.
  induction p as [|a p IH]; intros b s H.
  - simpl. destruct b; [apply words_from_open | lia].
  - destruct s as [|c s]; [discriminate|].
    simpl in H. apply andb_true_iff in H. destruct H as [Hac Hp].
    apply Ascii.eqb_eq in Hac. subst c. simpl.
    destruct (isspace a).
    + specialize (IH false s Hp). destruct b; lia.
    + apply IH. exact Hp.
Qed.

(** A text has at least as many words as any of its substrings. *)
Lemma words_from_contains (p s : string) :
  contains p s = true -> words_from false p <= words_from false s.
Proof.
  induction s as [|c s IH]; intro H; simpl in H.
  - rewrite orb_false_r in H. apply (words_from_prefix p false "" H).
  - apply orb_true_iff in H. destruct H as [H|H].
    + apply (words_from_prefix p false (String c s) H).
    + specialize (IH H). pose proof (words_from_tail false c s). lia.
Qed.

Lemma words_from_trailing_space (s : string) (b : bool) :
  words_from b (s ++ " ") = words_from b s.
Proof.
  revert b. induction s as [|c s IH]; intro b; simpl.
  - destruct b; reflexivity.
  - destruct (isspace c); rewrite IH; reflexivity.
Qed.

Lemma words_padded (s : string) :
  words_from false (" " ++ s ++ " ") = words_from false s.
Proof.
  change (" " ++ s ++ " ") with (String " " (s ++ " ")).
  simpl. apply words_from_trailing_space.
Qed.

Lemma existsb_none {A : Type} (f : A -> bool) (l : list A) :
  (forall x, In x l -> f x = false) -> existsb f l = false.
Proof.
  induction l as [|a l IH]; intro H; [reflexivity|].
  simpl. rewrite (H a (or_introl eq_refl)). apply IH.
  intros x Hx. apply H. right. exact Hx.
Qed.

(** A text of fewer words than [p] does not contain [p]. *)
Lemma contains_more_words (p s : string) :
  List.length (split s) < List.length (split p) -> contains p s = false.
Proof.
  intro H. destruct (contains p s) eqn:E; [|reflexivity].
  apply words_from_contains in E. rewrite !split_words in H. lia.
Qed.

(** The boolean matcher rejects every utterance of a single word: the
    phrases need more words than it has, and the only single word it could
    equal is caught by the guard on short utterances. *)
Lemma single_word_rejected (text : string) :
  List.length (split (lower text)) = 1 ->
  TriggerWords.contains_trigger_word text = false.
Proof.
  intro Hone.
  unfold TriggerWords.contains_trigger_word.
  destruct (negb (truthy text)); [reflexivity|].
  destruct (mem (strip (lower text)) ["hello"; "hi"; "hey"; "ok"; "okay"]);
    [reflexivity|].
  cbv zeta.
  rewrite existsb_none.
  2:{ intros trigger _.
      destruct (1 <? List.length (split trigger)) eqn:E; [|reflexivity].
      apply Nat.ltb_lt in E. rewrite andb_true_l.
      apply contains_more_words.
      rewrite !split_words, !words_padded, <- !split_words. lia. }
  rewrite existsb_none.
  2:{ intros trigger _. unfold TriggerWords.variation_hit.
      destruct (contains trigger (lower text)); [|reflexivity].
      destruct (split (lower text)) as [|w [|w' ws]]; try discriminate.
      simpl existsb. rewrite orb_false_r.
      destruct (String.eqb w trigger); [reflexivity|]. simpl andb. cbv iota.
      destruct (1 <? List.length (split trigger)) eqn:E; [|reflexivity].
      apply Nat.ltb_lt in E. unfold TriggerWords.window_hit.
      simpl List.length.
      replace (1 + 1 - List.length (split trigger)) with 0 by lia.
      reflexivity. }
  rewrite Hone. change (seq 0 (1 - 1)) with (@nil nat).
  match goal with
  | |- context [existsb ?f (@nil nat)] => change (existsb f (@nil nat)) with false
  end.
  cbv iota.
  apply existsb_none. intros pattern Hin.
  apply contains_more_words. rewrite Hone.
  simpl in Hin.
  repeat (destruct Hin as [<- | Hin]; [vm_compute; lia|]).
  contradiction.
Qed.

(** C5, as amended.  In the boolean matcher of consolidated/trigger_words.py
    every utterance of a single word that is a trigger or variation, such as
    "friend" alone, does not match, whatever its case and the whitespace
    around it; "Hey friend, can you help?" matches, in the boolean and in the
    scored matcher. *)
Theorem bare_trigger_word_too_weak :
  forall text variation : string,
    In variation TriggerWords.ALL_TRIGGERS ->
    split (lower text) = [variation] ->
    TriggerWords.contains_trigger_word text = false
    /\ TriggerWords.contains_trigger_word "Hey friend, can you help?" = true
    /\ EnhancedTriggerWords.contains_trigger_word "Hey friend, can you help?"
         EnhancedTriggerWords.default_threshold = true.
Proof.
  intros text variation _ Hone.
  split; [|vm_compute; split; reflexivity].
  apply single_word_rejected. rewrite Hone. reflexivity.
Qed.

Lemma bare_trigger_word_too_weak_witness :
  TriggerWords.contains_trigger_word "friend" = false.
Proof.
  apply (bare_trigger_word_too_weak "friend" "friend").
  - simpl. left. reflexivity.
  - vm_compute. reflexivity.
Defined.

(** C5, as stated, fails in the scored matcher of lib/voice/trigger_words.py:
    "friend" alone is the key "friend" as a whole word and matches. *)
Lemma scored_matcher_accepts_bare_friend :
  EnhancedTriggerWords.contains_trigger_word "friend"
    EnhancedTriggerWords.default_threshold = true
  /\ List.length (split (lower "friend")) = 1
  /\ mem "friend" (split (lower "friend")) = true
  /\ mem "friend" EnhancedTriggerWords.ALL_TRIGGERS = true.
Proof. vm_compute. repeat split. Qed.

(** * Further properties *)

Import MoreNotions.

(** ** More on strings *)

Lemma lower_char_idempotent (c : ascii) :
  lower_char (lower_char c) = lower_char c.
Proof.
  destruct c as [b0 b1 b2 b3 b4 b5 b6 b7].
  destruct b0, b1, b2, b3, b4, b5, b6, b7; reflexivity.
Qed.

Lemma lower_idempotent (s : string) : lower (lower s) = lower s.
Proof.
  induction s as [|c s IH]; simpl; [reflexivity|].
  rewrite lower_char_idempotent, IH. reflexivity.
Qed.

Lemma truthy_lower (s : string) : truthy (lower s) = truthy s.
Proof. destruct s; reflexivity. Qed.

Lemma lower_app (a b : string) : lower (a ++ b) = lower a ++ lower b.
Proof.
  induction a as [|c a IH]; simpl; [reflexivity|]. rewrite IH. reflexivity.
Qed.

Lemma rev_append_app (s acc : string) : rev_append s acc = rev s ++ acc.
Proof.
  unfold rev. revert acc.
  induction s as [|c s IH]; intro acc; simpl; [reflexivity|].
  rewrite IH, (IH (String c "")), string_app_assoc. reflexivity.
Qed.

Lemma string_app_nil_r (s : string) : s ++ "" = s.
Proof. induction s as [|c s IH]; simpl; [reflexivity|]. rewrite IH. reflexivity. Qed.

Lemma rev_cons (c : ascii) (s : string) : rev (String c s) = rev s ++ String c "".
Proof. unfold rev at 1. simpl. apply rev_append_app. Qed.

Lemma rev_app (a b : string) : rev (a ++ b) = rev b ++ rev a.
Proof.
  induction a as [|c a IH]; simpl.
  - rewrite string_app_nil_r. reflexivity.
  - rewrite !rev_cons, IH, string_app_assoc. reflexivity.
Qed.

Lemma rev_involutive (s : string) : rev (rev s) = s.
Proof.
  induction s as [|c s IH]; [reflexivity|].
  rewrite rev_cons, rev_app, IH. reflexivity.
Qed.

Lemma allspace_app (a b : string) :
  allspace (a ++ b) = allspace a && allspace b.
Proof.
  induction a as [|c a IH]; simpl; [reflexivity|].
  rewrite IH, andb_assoc. reflexivity.
Qed.

Lemma allspace_rev (s : string) : allspace (rev s) = allspace s.
Proof.
  induction s as [|c s IH]; [reflexivity|].
  rewrite rev_cons, allspace_app, IH. simpl.
  rewrite andb_true_r. apply andb_comm.
Qed.

(** What [lstrip] removes is whitespace. *)
Lemma lstrip_split (s : string) :
  exists pre, s = pre ++ lstrip s /\ allspace pre = true.
Proof.
  induction s as [|c s IH]; simpl.
  - exists "". split; reflexivity.
  - destruct (isspace c) eqn:E.
    + destruct IH as (pre & Hs & Hpre). exists (String c pre). split.
      * simpl. rewrite <- Hs. reflexivity.
      * simpl. rewrite E, Hpre. reflexivity.
    + exists "". split; reflexivity.
Qed.

(** A text is its stripped form between two runs of whitespace. *)
Lemma strip_split (s : string) :
  exists pre post,
    s = pre ++ strip s ++ post /\ allspace pre = true /\ allspace post = true.
Proof.
  unfold strip.
  destruct (lstrip_split s) as (pre & Hs & Hpre).
  destruct (lstrip_split (rev (lstrip s))) as (q & Hq & Hqs).
  exists pre, (rev q). split; [|split].
  - rewrite <- rev_app, <- Hq, rev_involutive. exact Hs.
  - exact Hpre.
  - rewrite allspace_rev. exact Hqs.
Qed.

Lemma lstrip_allspace_app (pre s : string) :
  allspace pre = true -> lstrip (pre ++ s) = lstrip s.
Proof.
  induction pre as [|c pre IH]; simpl; intro H; [reflexivity|].
  apply andb_true_iff in H. destruct H as [Hc Hpre].
  rewrite Hc. apply IH. exact Hpre.
Qed.

Lemma words_from_leading (pre s : string) :
  allspace pre = true -> words_from false (pre ++ s) = words_from false s.
Proof.
  induction pre as [|c pre IH]; simpl; intro H; [reflexivity|].
  apply andb_true_iff in H. destruct H as [Hc Hpre].
  rewrite Hc. apply IH. exact Hpre.
Qed.

Lemma words_from_trailing (post s : string) (b : bool) :
  allspace post = true -> words_from b (s ++ post) = words_from b s.
Proof.
  intro H. revert b. induction s as [|c s IH]; intro b; simpl.
  - clear - H. revert b. induction post as [|c post IH]; intro b; [reflexivity|].
    simpl in H. apply andb_true_iff in H. destruct H as [Hc Hpost].
    simpl. rewrite Hc. rewrite (IH Hpost false). simpl.
    destruct b; reflexivity.
  - destruct (isspace c); rewrite IH; reflexivity.
Qed.

(** Stripping keeps the words. *)
Lemma words_strip (s : string) :
  List.length (split (strip s)) = List.length (split s).
Proof.
  destruct (strip_split s) as (pre & post & Hs & Hpre & Hpost).
  rewrite !split_words. rewrite Hs at 2.
  rewrite words_from_leading by exact Hpre.
  rewrite words_from_trailing by exact Hpost. reflexivity.
Qed.

Lemma startswith_app (p s : string) : startswith p (p ++ s) = true.
Proof.
  induction p as [|c p IH]; simpl; [reflexivity|].
  rewrite Ascii.eqb_refl, IH. reflexivity.
Qed.

Lemma contains_prefix (p s : string) : startswith p s = true -> contains p s = true.
Proof. intro H. destruct s; simpl; rewrite H; reflexivity. Qed.

Lemma contains_app_r (w p s : string) :
  contains w s = true -> contains w (p ++ s) = true.
Proof.
  intro H. induction p as [|c p IH]; simpl; [exact H|].
  rewrite IH. apply orb_true_r.
Qed.

Lemma contains_app_l (w p s : string) :
  contains w p = true -> contains w (p ++ s) = true.
Proof.
  revert w. induction p as [|c p IH]; intros w H.
  - simpl in H. rewrite orb_false_r in H.
    destruct w; [|discriminate]. destruct s; reflexivity.
  - simpl in H. apply orb_true_iff in H. destruct H as [H|H].
    + apply contains_prefix.
      clear IH. revert H. generalize (String c p) as q. revert s.
      induction w as [|a w IHw]; intros s q H; [reflexivity|].
      destruct q as [|b q]; [discriminate|].
      simpl in H. apply andb_true_iff in H. destruct H as [Hab Hw].
      simpl. rewrite Hab. simpl. apply IHw. exact Hw.
    + simpl. rewrite (IH w H). apply orb_true_r.
Qed.

(** Every word that [split] returns occurs in the text. *)
Lemma split_aux_contains (s : string) :
  forall cur w,
    In w (split_aux s cur) -> contains w (rev cur ++ s) = true.
Proof.
  induction s as [|c s IH]; intros cur w H.
  - simpl in H. destruct cur as [|a cur]; [contradiction|].
    destruct H as [<-|[]]. apply contains_prefix. apply startswith_app.
  - simpl in H. destruct (isspace c).
    + destruct cur as [|a cur].
      * apply (IH "" w) in H. simpl in H.
        change (rev "" ++ String c s) with (String c s).
        simpl. rewrite H. apply orb_true_r.
      * destruct H as [<-|H].
        -- apply contains_prefix. apply startswith_app.
        -- apply (IH "" w) in H. simpl in H.
           apply contains_app_r. simpl. rewrite H. apply orb_true_r.
    + apply (IH (String c cur) w) in H.
      rewrite rev_cons, string_app_assoc in H. exact H.
Qed.

Lemma split_contains (s w : string) : In w (split s) -> contains w s = true.
Proof. intro H. apply (split_aux_contains s "" w H). Qed.

(** A lowered text holds no upper-case letter of A-Z. *)
Lemma lower_char_not_upper (c : ascii) :
  let n := nat_of_ascii (lower_char c) in (65 <=? n) && (n <=? 90) = false.
Proof.
  destruct c as [b0 b1 b2 b3 b4 b5 b6 b7].
  destruct b0, b1, b2, b3, b4, b5, b6, b7; reflexivity.
Qed.

Lemma lstrip_solid (g x : string) :
  starts_solid g = true -> lstrip (g ++ x) = g ++ x.
Proof.
  destruct g as [|c g]; [discriminate|]. simpl. intro H.
  apply negb_true_iff in H. rewrite H. reflexivity.
Qed.

(** A text without whitespace at its ends survives [strip], whatever
    whitespace surrounds it. *)
Lemma strip_padded (pre g post : string) :
  allspace pre = true -> allspace post = true ->
  starts_solid g = true -> starts_solid (rev g) = true ->
  strip (pre ++ g ++ post) = g.
Proof.
  intros Hpre Hpost Hg Hrg. unfold strip.
  rewrite lstrip_allspace_app by exact Hpre.
  rewrite lstrip_solid by exact Hg.
  rewrite rev_app.
  rewrite lstrip_allspace_app by (rewrite allspace_rev; exact Hpost).
  rewrite <- (string_app_nil_r (rev g)), lstrip_solid by exact Hrg.
  rewrite string_app_nil_r. apply rev_involutive.
Qed.

Lemma startswith_lower (s : string) :
  forall p, startswith p (lower s) = true -> lower p = p.
Proof.
  induction s as [|c s IH]; intros [|a p] H; try reflexivity; try discriminate.
  simpl in H. apply andb_true_iff in H. destruct H as [Hac Hp].
  apply Ascii.eqb_eq in Hac. subst a. simpl.
  rewrite lower_char_idempotent, (IH p Hp). reflexivity.
Qed.

(** Whatever occurs in a lowered text is in lower case itself. *)
Lemma contains_lower (s p : string) :
  contains p (lower s) = true -> lower p = p.
Proof.
  induction s as [|c s IH]; simpl; intro H.
  - rewrite orb_false_r in H. destruct p; [reflexivity | discriminate].
  - apply orb_true_iff in H. destruct H as [H|H].
    + apply (startswith_lower (String c s) p H).
    + apply IH. exact H.
Qed.

Lemma count_aux_absent (sub s : string) :
  contains sub s = false -> forall skip, count_aux sub s skip = 0.
Proof.
  induction s as [|c s IH]; intros H skip; [reflexivity|].
  simpl in H. apply orb_false_iff in H. destruct H as [Hp Hs].
  simpl. destruct skip as [|k]; [|apply IH; exact Hs].
  simpl in Hp. rewrite Hp. apply IH. exact Hs.
Qed.

(** ** The matchers and letter case *)

Section LetterCase.
Import VoiceToClaudeCode VoiceAfkListener AssistantLoop.

(** X1.  The trigger matchers, the stop-command test, both cancel monitors
    and the command router see a text only through its lowered form: a text
    and its lowered form get the same answer. *)
Theorem letter_case_is_ignored :
  forall (cfg : config) (threshold : Q) (w : world) (self : listener)
         (text : string),
    TriggerWords.contains_trigger_word (lower text)
    = TriggerWords.contains_trigger_word text
    /\ EnhancedTriggerWords.contains_trigger_word (lower text) threshold
       = EnhancedTriggerWords.contains_trigger_word text threshold
    /\ check_for_trigger_word cfg (lower text) = check_for_trigger_word cfg text
    /\ check_for_stop_command (lower text) = check_for_stop_command text
    /\ monitor_detects (lower text) = monitor_detects text
    /\ tts_cancel_detects (lower text) = tts_cancel_detects text
    /\ process_command w self (lower text) = process_command w self text.
Proof.
  intros cfg threshold w self text.
  unfold check_for_trigger_word, builtin_check,
    TriggerWords.contains_trigger_word,
    EnhancedTriggerWords.contains_trigger_word, check_for_stop_command,
    monitor_detects, tts_cancel_detects, process_command.
  rewrite !lower_idempotent, !truthy_lower.
  repeat split; reflexivity.
Qed.

(** X2.  A trigger or variation that is not written in lower case can never
    be found: it fails the whole-phrase test and the variation test of the
    boolean matcher and counts as 0 in the dynamic context length.  The
    consolidated table holds one such entry, "Claude assistant". *)
Theorem capitalised_variation_never_matches :
  forall (trigger text : string),
    lower trigger <> trigger ->
    contains (" " ++ trigger ++ " ") (" " ++ lower text ++ " ") = false
    /\ TriggerWords.variation_hit (lower text) trigger = false
    /\ count trigger (lower text) = 0
    /\ In "Claude assistant" TriggerWords.ALL_TRIGGERS.
Proof.
  intros trigger text Hcase.
  assert (Hno : forall s, contains trigger (lower s) = false).
  { intro s. destruct (contains trigger (lower s)) eqn:E; [|reflexivity].
    exfalso. apply Hcase. apply (contains_lower s trigger E). }
  split; [|split; [|split]].
  - destruct (contains (" " ++ trigger ++ " ") (" " ++ lower text ++ " ")) eqn:E;
      [|reflexivity].
    exfalso. apply Hcase.
    change (" " ++ lower text ++ " ") with (lower " " ++ lower text ++ lower " ") in E.
    rewrite <- !lower_app in E. apply contains_lower in E.
    rewrite !lower_app in E. simpl in E.
    injection E as E. 
    assert (Hlen : forall a b : string, a ++ " " = b ++ " " -> a = b).
    { induction a as [|x a IH]; intros [|y b] H; simpl in H.
      - reflexivity.
      - destruct b; discriminate.
      - destruct a; discriminate.
      - injection H as -> H. rewrite (IH b H). reflexivity. }
    apply Hlen. exact E.
  - unfold TriggerWords.variation_hit. rewrite Hno. reflexivity.
  - unfold count. destruct trigger as [|c t]; [exfalso; apply Hcase; reflexivity|].
    apply count_aux_absent. apply Hno.
  - vm_compute. tauto.
Qed.

Lemma capitalised_variation_never_matches_witness :
  TriggerWords.variation_hit (lower "Claude assistant please help me")
    "Claude assistant" = false.
Proof.
  apply (capitalised_variation_never_matches "Claude assistant"
           "Claude assistant please help me").
  vm_compute. discriminate.
Defined.

(** X3.  A bare greeting never matches, in any letter case and with any
    whitespace around it, in the boolean matcher, in the scored matcher at
    any threshold, and in the built-in fallback. *)
Theorem bare_greeting_never_matches :
  forall (cfg : config) (threshold : Q) (text pre post greeting : string),
    In greeting ["hello"; "hi"; "hey"; "ok"; "okay"] ->
    allspace pre = true -> allspace post = true ->
    lower text = pre ++ greeting ++ post ->
    TriggerWords.contains_trigger_word text = false
    /\ EnhancedTriggerWords.contains_trigger_word text threshold = false
    /\ check_for_trigger_word cfg text = false.
Proof.
  intros cfg threshold text pre post g Hg Hpre Hpost Hlow.
  assert (Hstrip : mem (strip (lower text)) ["hello"; "hi"; "hey"; "ok"; "okay"]
                   = true).
  { rewrite Hlow, strip_padded; try assumption.
    - unfold mem. apply existsb_exists. exists g. split; [exact Hg|].
      apply String.eqb_refl.
    - simpl in Hg. repeat (destruct Hg as [<-|Hg]; [reflexivity|]). contradiction.
    - simpl in Hg. repeat (destruct Hg as [<-|Hg]; [reflexivity|]). contradiction. }
  unfold check_for_trigger_word, builtin_check,
    TriggerWords.contains_trigger_word,
    EnhancedTriggerWords.contains_trigger_word.
  rewrite Hstrip.
  destruct (negb (truthy text)), (trigger_module cfg); repeat split; reflexivity.
Qed.

Lemma bare_greeting_never_matches_witness :
  TriggerWords.contains_trigger_word "  Hey " = false.
Proof.
  apply (bare_greeting_never_matches default_config (6 # 10)%Q
           "  Hey " "  " " " "hey").
  - simpl. tauto.
  - reflexivity.
  - reflexivity.
  - reflexivity.
Defined.

Lemma long_utterance_with_trigger_word :
  forall (text trigger : string),
    In trigger TriggerWords.ALL_TRIGGERS ->
    split trigger = [trigger] ->
    In trigger (split (lower text)) ->
    3 <= List.length (split (lower text)) ->
    TriggerWords.contains_trigger_word text = true.
Proof.
  intros text trigger Hin Hone Hword Hlen.
  unfold TriggerWords.contains_trigger_word.
  assert (Htruthy : truthy text = true).
  { destruct text; [simpl in Hlen; lia | reflexivity]. }
  rewrite Htruthy. simpl negb. cbv iota.
  destruct (mem (strip (lower text)) ["hello"; "hi"; "hey"; "ok"; "okay"]) eqn:Eg.
  - exfalso. unfold mem in Eg. apply existsb_exists in Eg.
    destruct Eg as (g & Hg & Heq). apply String.eqb_eq in Heq.
    pose proof (words_strip (lower text)) as Hw. rewrite Heq in Hw.
    assert (Hg1 : List.length (split g) = 1).
    { simpl in Hg. repeat (destruct Hg as [<-|Hg]; [reflexivity|]).
      contradiction. }
    lia.
  - cbv zeta.
    match goal with |- (if ?b then true else _) = true => destruct b end;
      [reflexivity|].
    assert (Hhit : existsb (TriggerWords.variation_hit (lower text))
                     TriggerWords.ALL_TRIGGERS = true).
    { apply existsb_exists. exists trigger. split; [exact Hin|].
      unfold TriggerWords.variation_hit.
      rewrite (split_contains _ _ Hword).
      replace (List.length (split (lower text)) <? 3) with false
        by (symmetry; apply Nat.ltb_ge; exact Hlen).
      simpl andb. cbv iota. rewrite Hone. simpl List.length. simpl Nat.ltb.
      cbv iota. apply existsb_exists. exists trigger. split; [exact Hword|].
      apply String.eqb_refl. }
    rewrite Hhit. reflexivity.
Qed.

(** X4.  In the boolean matcher, an utterance of three words or more that
    has a single-word trigger or variation among its words always
    matches. *)
Theorem whole_word_trigger_matches :
  forall (text trigger : string),
    In trigger TriggerWords.ALL_TRIGGERS ->
    split trigger = [trigger] ->
    In trigger (split (lower text)) ->
    3 <= List.length (split (lower text)) ->
    TriggerWords.contains_trigger_word text = true.
Proof. exact long_utterance_with_trigger_word. Qed.

(** The module's own test table expects no match here. *)
Lemma whole_word_trigger_matches_witness :
  TriggerWords.contains_trigger_word "This is a friend" = true.
Proof.
  apply (whole_word_trigger_matches "This is a friend" "friend").
  - simpl. tauto.
  - reflexivity.
  - vm_compute. tauto.
  - vm_compute. lia.
Defined.

End LetterCase.

(** ** The scored matcher and its threshold *)

From Stdlib Require Import Lqa.

Section Threshold.
Import EnhancedTriggerWords.

Lemma qmax_bounds (a b m : Q) :
  (0 <= a)%Q -> (a <= m)%Q -> (b <= m)%Q ->
  (0 <= qmax a b)%Q /\ (qmax a b <= m)%Q.
Proof.
  intros H0 Ha Hb. unfold qmax.
  destruct (Qle_bool b a) eqn:E; [split; assumption|].
  split; [|exact Hb].
  destruct (Qlt_le_dec a b) as [Hlt|Hle].
  - lra.
  - apply Qle_bool_iff in Hle. rewrite Hle in E. discriminate.
Qed.

Lemma fold_left_keeps {A B : Type} (P : A -> Prop) (f : A -> B -> A)
    (l : list B) :
  (forall acc x, In x l -> P acc -> P (f acc x)) ->
  forall init, P init -> P (fold_left f l init).
Proof.
  induction l as [|x l IH]; intros Hf init H; [exact H|].
  simpl. apply IH.
  - intros acc y Hy. apply Hf. right. exact Hy.
  - apply Hf; [left; reflexivity | exact H].
Qed.

Lemma score_variations_range (text_lower : string) (vs : list string) (c : Q) :
  in_range c -> in_range (score_variations text_lower vs c).
Proof.
  unfold score_variations. apply fold_left_keeps.
  intros acc v _ [H0 H1].
  destruct (contains v text_lower); [|split; assumption].
  destruct (search_bounded v text_lower None);
    apply qmax_bounds; try assumption; lra.
Qed.

Lemma scan_table_range (text_lower : string)
    (tv : list (string * list string)) :
  forall c c', in_range c -> scan_table text_lower tv c = Some c' -> in_range c'.
Proof.
  induction tv as [|[k vs] tv IH]; intros c c' Hc H; cbn [scan_table] in H.
  - inversion H. subst c'. exact Hc.
  - destruct (contains (" " ++ k ++ " ") (" " ++ text_lower ++ " "));
      [discriminate|].
    apply (IH _ _ (score_variations_range text_lower vs c Hc) H).
Qed.

(** The table loop returns at once exactly when a key stands in the text
    as a whole word. *)
Lemma scan_table_whole_word (text_lower : string)
    (tv : list (string * list string)) :
  forall c,
    scan_table text_lower tv c = None
    <-> existsb (fun primary =>
                   contains (" " ++ primary ++ " ") (" " ++ text_lower ++ " "))
                (map fst tv) = true.
Proof.
  induction tv as [|[k vs] tv IH]; intro c; cbn [scan_table existsb map fst].
  - split; intro H; discriminate H.
  - destruct (contains (" " ++ k ++ " ") (" " ++ text_lower ++ " ")).
    + split; reflexivity.
    + cbn [orb]. apply IH.
Qed.

Lemma score_patterns_range (text_lower : string) (c : Q) :
  in_range c -> in_range (score_patterns text_lower c).
Proof.
  unfold score_patterns. apply fold_left_keeps.
  intros acc pc Hin [H0 H1].
  destruct (re_search (fst pc) text_lower); [|split; assumption].
  apply qmax_bounds; try assumption.
  simpl in Hin.
  repeat (destruct Hin as [<-|Hin]; [simpl; lra|]). contradiction.
Qed.

Lemma score_prefix_range (word trigger : string) (c : Q) :
  in_range c -> in_range (score_prefix word trigger c).
Proof.
  intros [H0 H1]. unfold score_prefix.
  destruct (String.length trigger <=? 2); [split; assumption|].
  destruct ((3 <=? String.length word) && (3 <=? String.length trigger)) eqn:E;
    [|split; assumption].
  apply andb_true_iff in E. destruct E as [Ew Et].
  apply Nat.leb_le in Ew, Et.
  destruct (String.eqb _ _); [|split; assumption].
  apply qmax_bounds; try assumption.
  set (mn := Nat.min (String.length word) (String.length trigger)).
  set (mx := Nat.max (String.length word) (String.length trigger)).
  assert (Hmx : (0 < inject_Z (Z.of_nat mx))%Q).
  { rewrite <- (Zlt_Qlt 0). unfold mx. lia. }
  assert (Hle : (inject_Z (Z.of_nat mn) / inject_Z (Z.of_nat mx) <= 1)%Q).
  { apply Qle_shift_div_r; [exact Hmx|].
    rewrite Qmult_1_l. rewrite <- Zle_Qle. unfold mn, mx. lia. }
  lra.
Qed.

Lemma score_words_range (words : list string) (c : Q) :
  in_range c -> in_range (score_words words c).
Proof.
  intro Hc. unfold score_words.
  destruct (3 <=? List.length words); [|exact Hc].
  apply fold_left_keeps; [|exact Hc].
  intros acc word _ Hacc.
  destruct (String.length word <=? 2); [exact Hacc|].
  apply fold_left_keeps; [|exact Hacc].
  intros acc' trigger _ Hacc'. apply score_prefix_range. exact Hacc'.
Qed.

(** X5.  The scored matcher is the easier to satisfy the lower its
    threshold: a text that matches at one threshold matches at every lower
    one. *)
Theorem lower_threshold_matches_more :
  forall (text : string) (t1 t2 : Q),
    (t1 <= t2)%Q ->
    contains_trigger_word text t2 = true ->
    contains_trigger_word text t1 = true.
Proof.
  intros text t1 t2 Hle. unfold contains_trigger_word.
  destruct (negb (truthy text)); [discriminate|].
  destruct (mem (strip (lower text)) ["hello"; "hi"; "hey"; "ok"; "okay"]);
    [discriminate|].
  destruct (scan_table (lower text) TRIGGER_VARIATIONS 0%Q); [|reflexivity].
  cbv zeta. rewrite !Qle_bool_iff. intro H. lra.
Qed.

Lemma lower_threshold_matches_more_witness :
  contains_trigger_word "the clau thing" (5 # 10)%Q = true.
Proof.
  apply (lower_threshold_matches_more "the clau thing" (5 # 10)%Q (6 # 10)%Q).
  - vm_compute. discriminate.
  - vm_compute. reflexivity.
Defined.

(** X6.  No scoring step takes the confidence above 0.9 or below 0.  So at
    a threshold above 0.9 a text matches exactly when a canonical key stands
    in it as a whole word, and at a threshold of 0 or less every text
    matches that is neither empty nor a bare greeting. *)
Theorem threshold_extremes :
  forall (text : string) (threshold : Q),
    ((9 # 10 < threshold)%Q ->
     contains_trigger_word text threshold
     = truthy text
       && negb (mem (strip (lower text)) ["hello"; "hi"; "hey"; "ok"; "okay"])
       && existsb (fun primary =>
                     contains (" " ++ primary ++ " ") (" " ++ lower text ++ " "))
                  (map fst TRIGGER_VARIATIONS))
    /\ ((threshold <= 0)%Q ->
        contains_trigger_word text threshold
        = truthy text
          && negb (mem (strip (lower text)) ["hello"; "hi"; "hey"; "ok"; "okay"])).
Proof.
  intros text threshold. unfold contains_trigger_word.
  destruct (truthy text); cbn [negb andb]; [|split; reflexivity].
  destruct (mem (strip (lower text)) ["hello"; "hi"; "hey"; "ok"; "okay"]);
    cbn [negb andb]; [split; reflexivity|].
  pose proof (scan_table_whole_word (lower text) TRIGGER_VARIATIONS 0%Q) as Hww.
  destruct (scan_table (lower text) TRIGGER_VARIATIONS 0%Q) as [c1|] eqn:E.
  - assert (Hr : in_range (score_words (split (lower text))
                             (score_patterns (lower text) c1))).
    { apply score_words_range, score_patterns_range.
      apply (scan_table_range (lower text) TRIGGER_VARIATIONS 0%Q c1);
        [split; lra | exact E]. }
    destruct Hr as [H0 H1]. cbv zeta. split; intro Ht.
    + destruct (existsb _ (map fst TRIGGER_VARIATIONS)) eqn:Ex.
      * destruct Hww as [_ Hww]. specialize (Hww eq_refl). discriminate.
      * destruct (Qle_bool threshold _) eqn:Eb; [|reflexivity].
        apply Qle_bool_iff in Eb. lra.
    + apply Qle_bool_iff. lra.
  - split; intro Ht; [|reflexivity].
    symmetry. apply Hww. reflexivity.
Qed.

(** At threshold 0.95 the word "friends" no longer matches, the key
    "friend" still does. *)
Lemma threshold_extremes_witness :
  contains_trigger_word "so many friends here" (95 # 100)%Q = false
  /\ contains_trigger_word "my friend is here" (95 # 100)%Q = true.
Proof.
  destruct (threshold_extremes "so many friends here" (95 # 100)%Q) as [H1 _].
  destruct (threshold_extremes "my friend is here" (95 # 100)%Q) as [H2 _].
  rewrite H1 by (vm_compute; reflexivity).
  rewrite H2 by (vm_compute; reflexivity).
  vm_compute. split; reflexivity.
Defined.

End Threshold.

(** ** The context buffer *)

Section ContextBuffer.
Import VoiceToClaudeCode AssistantLoop.

Lemma capacity_positive (cfg : config) (text : string) :
  (1 <= CONTEXT_LENGTH_BASE cfg)%Z -> (1 <= CONTEXT_LENGTH_MAX cfg)%Z ->
  (1 <= get_dynamic_context_length cfg text)%Z.
Proof.
  intros Hb Hm. unfold get_dynamic_context_length.
  destruct (negb (truthy text)); [exact Hb|]. cbv zeta.
  pose proof (highest_bonus_range 0) as _.
  assert (Hc : forall xs t, (0 <= count_all xs t)%Z).
  { intros xs t. induction xs as [|x xs IH]; simpl; lia. }
  repeat match goal with |- context [(?a <? ?b)%Z] => destruct (a <? b)%Z end;
    lia.
Qed.

Lemma capacity_at_most_base_plus_50 (cfg : config) (text : string) :
  (get_dynamic_context_length cfg text <= CONTEXT_LENGTH_BASE cfg + 50)%Z.
Proof.
  unfold get_dynamic_context_length.
  destruct (negb (truthy text)); [lia|]. cbv zeta.
  repeat match goal with |- context [(?a <? ?b)%Z] => destruct (a <? b)%Z end;
    lia.
Qed.

Lemma last_skipn {A : Type} (l : list A) (d : A) (k : nat) :
  k < List.length l -> last (skipn k l) d = last l d.
Proof.
  revert l. induction k as [|k IH]; intros l H; [reflexivity|].
  destruct l as [|a l]; [simpl in H; lia|].
  simpl skipn. rewrite IH by (simpl in H; lia).
  destruct l; [simpl in H; lia | reflexivity].
Qed.

(** What one realtime update does to the buffer, for positive bounds. *)
Lemma realtime_update_shape (cfg : config) (self : assistant) (text : string) :
  (1 <= CONTEXT_LENGTH_BASE cfg)%Z -> (1 <= CONTEXT_LENGTH_MAX cfg)%Z ->
  truthy text && truthy (strip text) = true ->
  (Z.of_nat (List.length (context_buffer (fst (on_realtime_update cfg self text))))
   <= get_dynamic_context_length cfg
        (context_text (fst (on_realtime_update cfg self text))))%Z
  /\ last (context_buffer (fst (on_realtime_update cfg self text))) "" = text
  /\ (exists k,
         context_buffer (fst (on_realtime_update cfg self text))
         = skipn k (context_buffer self ++ [text])%list)
  /\ conversation_history (fst (on_realtime_update cfg self text))
     = conversation_history self.
Proof.
  intros Hb Hm Htext. unfold on_realtime_update. rewrite Htext.
  cbv zeta. cbn [fst context_buffer context_text conversation_history].
  set (ct := strip (context_text self ++ " " ++ text)).
  pose proof (capacity_positive cfg ct Hb Hm) as Hcap.
  set (cap := get_dynamic_context_length cfg ct) in *.
  set (buf := (context_buffer self ++ [text])%list).
  assert (Hlen : List.length buf = S (List.length (context_buffer self))).
  { unfold buf. rewrite length_app. simpl. lia. }
  assert (Hlast : last buf "" = text).
  { unfold buf. apply last_last. }
  destruct (cap <? Z.of_nat (List.length buf))%Z eqn:E.
  - apply Z.ltb_lt in E. unfold slice_last.
    replace (cap =? 0)%Z with false by (symmetry; apply Z.eqb_neq; lia).
    replace (cap <? 0)%Z with false by (symmetry; apply Z.ltb_ge; lia).
    repeat split.
    + rewrite length_skipn. lia.
    + rewrite last_skipn by lia. exact Hlast.
    + eexists. reflexivity.
  - apply Z.ltb_ge in E. repeat split.
    + exact E.
    + exact Hlast.
    + exists 0. reflexivity.
Qed.

(** X7.  With a base and a maximum of at least 1, a realtime update with a
    text that is not blank leaves a buffer no longer than the capacity just
    computed, and so no longer than base + 50; the new text is its last
    entry and the rest is what stood before it, shortened from the oldest
    end only.  A blank text changes nothing. *)
Theorem realtime_update_keeps_buffer_bounded :
  forall (cfg : config) (self : assistant) (text : string),
    (1 <= CONTEXT_LENGTH_BASE cfg)%Z -> (1 <= CONTEXT_LENGTH_MAX cfg)%Z ->
    (truthy text && truthy (strip text) = false ->
     on_realtime_update cfg self text = (self, None))
    /\ (truthy text && truthy (strip text) = true ->
        (Z.of_nat (List.length
                     (context_buffer (fst (on_realtime_update cfg self text))))
         <= get_dynamic_context_length cfg
              (context_text (fst (on_realtime_update cfg self text))))%Z
        /\ (Z.of_nat (List.length
                        (context_buffer (fst (on_realtime_update cfg self text))))
            <= CONTEXT_LENGTH_BASE cfg + 50)%Z
        /\ last (context_buffer (fst (on_realtime_update cfg self text))) "" = text
        /\ (exists k,
               context_buffer (fst (on_realtime_update cfg self text))
               = skipn k (context_buffer self ++ [text])%list)).
Proof.
  intros cfg self text Hb Hm. split.
  - intro H. unfold on_realtime_update. rewrite H. reflexivity.
  - intro H.
    destruct (realtime_update_shape cfg self text Hb Hm H) as (H1 & H2 & H3 & _).
    pose proof (capacity_at_most_base_plus_50 cfg
                  (context_text (fst (on_realtime_update cfg self text)))).
    repeat split; try assumption. lia.
Qed.

Lemma realtime_update_keeps_buffer_bounded_witness :
  context_buffer
    (fst (on_realtime_update default_config
            {| conversation_history := []; context_buffer := ["hey"];
               context_text := "hey"; trigger_already_displayed := false |}
            "hey friend"))
  = skipn 0 (["hey"] ++ ["hey friend"])%list.
Proof.
  destruct (realtime_update_keeps_buffer_bounded default_config
              {| conversation_history := []; context_buffer := ["hey"];
                 context_text := "hey"; trigger_already_displayed := false |}
              "hey friend") as [_ H].
  - vm_compute. discriminate.
  - vm_compute. discriminate.
  - destruct H as (_ & _ & _ & k & Hk); [reflexivity|].
    vm_compute. reflexivity.
Defined.

(** X8.  The command-line overrides cannot break that bound with values
    that are not negative: 0 is ignored, so after any such override the
    base and the maximum are at least 1 and every update with a text that is
    not blank leaves at most capacity-many entries. *)
Theorem overrides_keep_buffer_bounded :
  forall (a : args) (self : assistant) (text : string),
    (forall v, arg_context_base a = Some v -> (0 <= v)%Z) ->
    (forall v, arg_context_max a = Some v -> (0 <= v)%Z) ->
    truthy text && truthy (strip text) = true ->
    (1 <= CONTEXT_LENGTH_BASE (apply_args a default_config))%Z
    /\ (1 <= CONTEXT_LENGTH_MAX (apply_args a default_config))%Z
    /\ (Z.of_nat (List.length
                    (context_buffer
                       (fst (on_realtime_update (apply_args a default_config)
                               self text))))
        <= get_dynamic_context_length (apply_args a default_config)
             (context_text
                (fst (on_realtime_update (apply_args a default_config)
                        self text))))%Z.
Proof.
  intros a self text Hbase Hmax Htext.
  assert (Hb : (1 <= CONTEXT_LENGTH_BASE (apply_args a default_config))%Z).
  { simpl. unfold override. destruct (arg_context_base a) as [v|]; [|lia].
    specialize (Hbase v eq_refl). destruct (Z.eqb_spec v 0); lia. }
  assert (Hm : (1 <= CONTEXT_LENGTH_MAX (apply_args a default_config))%Z).
  { simpl. unfold override. destruct (arg_context_max a) as [v|]; [|lia].
    specialize (Hmax v eq_refl). destruct (Z.eqb_spec v 0); lia. }
  split; [exact Hb|]. split; [exact Hm|].
  apply (realtime_update_shape _ self text Hb Hm Htext).
Qed.

Lemma overrides_keep_buffer_bounded_witness :
  (1 <= CONTEXT_LENGTH_BASE
          (apply_args {| arg_min_length := None; arg_context_base := Some 0%Z;
                         arg_context_max := Some 2%Z; arg_input := None |}
             default_config))%Z.
Proof.
  apply (overrides_keep_buffer_bounded
           {| arg_min_length := None; arg_context_base := Some 0%Z;
              arg_context_max := Some 2%Z; arg_input := None |}
           {| conversation_history := []; context_buffer := [];
              context_text := ""; trigger_already_displayed := false |}
           "hey").
  - intros v H. injection H as <-. lia.
  - intros v H. injection H as <-. lia.
  - reflexivity.
Defined.

End ContextBuffer.

(** ** Trigger announcements and the assembled command *)

Section Announcements.
Import VoiceToClaudeCode AssistantLoop.

Lemma string_length_app (a b : string) :
  String.length (a ++ b) = String.length a + String.length b.
Proof. induction a as [|c a IH]; simpl; [reflexivity|]. rewrite IH. reflexivity. Qed.

(** A plain line is never taken for an announcement. *)
Lemma plain_line_announces_nothing (text : string) :
  announces (Some ("Listening: " ++ text)) text = false.
Proof.
  unfold announces. apply String.eqb_neq. intro H.
  apply (f_equal String.length) in H.
  rewrite !string_length_app in H. simpl in H. lia.
Qed.

Lemma realtime_update_flag (cfg : config) (self : assistant) (text : string) :
  (trigger_already_displayed self = true ->
   trigger_already_displayed (fst (on_realtime_update cfg self text)) = true
   /\ announces (snd (on_realtime_update cfg self text)) text = false)
  /\ (announces (snd (on_realtime_update cfg self text)) text = true ->
      trigger_already_displayed (fst (on_realtime_update cfg self text)) = true).
Proof.
  unfold on_realtime_update.
  destruct (truthy text && truthy (strip text)); cbv zeta; cbn [fst snd].
  - cbn [trigger_already_displayed].
    destruct (trigger_already_displayed self) eqn:Ef; cbn [negb andb orb].
    + split; [|reflexivity]. intros _. split; [reflexivity|].
      apply plain_line_announces_nothing.
    + split; [discriminate|].
      destruct (check_for_trigger_word cfg _); [reflexivity|].
      rewrite plain_line_announces_nothing. discriminate.
  - split; [intro H; split; [exact H | reflexivity] | discriminate].
Qed.

Lemma feed_announcements (cfg : config) (texts : list string) :
  forall self,
    announcements (snd (feed cfg self texts)) texts
    <= (if trigger_already_displayed self then 0 else 1).
Proof.
  induction texts as [|text rest IH]; intro self.
  - simpl. destruct (trigger_already_displayed self); lia.
  - simpl feed.
    pose proof (realtime_update_flag cfg self text) as [Hset Hann].
    destruct (on_realtime_update cfg self text) as [self1 line] eqn:E1.
    specialize (IH self1).
    destruct (feed cfg self1 rest) as [self2 lines] eqn:E2.
    cbn [fst snd] in *. cbn [announcements].
    destruct (trigger_already_displayed self) eqn:Ef.
    + destruct (Hset eq_refl) as [H1 H2]. rewrite H1 in IH. rewrite H2. lia.
    + destruct (announces line text) eqn:Ea.
      * rewrite (Hann eq_refl) in IH. lia.
      * destruct (trigger_already_displayed self1); lia.
Qed.

(** X9.  In a run of realtime updates that starts with the flag clear, at
    most one line announces a trigger; with the flag set, none does. *)
Theorem trigger_announced_at_most_once :
  forall (cfg : config) (self : assistant) (texts : list string),
    announcements (snd (feed cfg self texts)) texts
    <= (if trigger_already_displayed self then 0 else 1)
    /\ announcements
         (snd (feed default_config
                 {| conversation_history := []; context_buffer := [];
                    context_text := ""; trigger_already_displayed := false |}
                 ["hey"; "hey friend"; "hey friend can";
                  "hey friend can you help me write a script"]))
         ["hey"; "hey friend"; "hey friend can";
          "hey friend can you help me write a script"]
       = 1.
Proof.
  intros cfg self texts. split; [apply feed_announcements|].
  vm_compute. reflexivity.
Qed.

Lemma clean_context_sub (ctx : list string) :
  List.length (clean_context ctx) <= List.length ctx
  /\ forall e, In e (clean_context ctx) -> In e ctx.
Proof.
  induction ctx as [|e rest [IHl IHi]]; [split; [simpl; lia | tauto]|].
  simpl clean_context. destruct rest as [|next r].
  - split; [simpl; lia | tauto].
  - destruct (contains e next).
    + split; [simpl in *; lia | intros x Hx; right; apply IHi; exact Hx].
    + split; [simpl in *; lia|].
      intros x [<-|Hx]; [left; reflexivity | right; apply IHi; exact Hx].
Qed.

Lemma skipn_in_earlier {A : Type} (l : list A) (i j : nat) (x : A) :
  j <= i -> In x (skipn i l) -> In x (skipn j l).
Proof.
  intros Hji Hx.
  replace i with ((i - j) + j) in Hx by lia.
  rewrite <- skipn_skipn in Hx.
  revert Hx. generalize (skipn j l) as m. generalize (i - j) as k.
  induction k as [|k IH]; intros m Hx; [exact Hx|].
  destruct m as [|a m]; [exact Hx|]. right. apply IH. exact Hx.
Qed.

(** X10.  The command that finalization returns for a final text that is
    not empty is that text, preceded by at most 5 entries, all of them among
    the last 5 entries of the buffer. *)
Theorem command_carries_at_most_five_entries :
  forall (check : string -> bool) (buf : list string) (text : string),
    text <> "" ->
    exists selected,
      callback check buf text = join " " (selected ++ [text])%list
      /\ List.length selected <= 5
      /\ forall e, In e selected -> In e (skipn (List.length buf - 5) buf).
Proof.
  intros check buf text Htext. apply truthy_true_iff in Htext.
  unfold callback. rewrite Htext.
  assert (Hplain : exists selected,
             text = join " " (selected ++ [text])%list
             /\ List.length selected <= 5
             /\ forall e, In e selected -> In e (skipn (List.length buf - 5) buf)).
  { exists []. split; [reflexivity|]. split; [simpl; lia | intros e []]. }
  destruct (negb (check text)
            && match buf with [] => false | _ :: _ => true end);
    [|exact Hplain].
  destruct (find_trigger_below check buf (List.length buf)) as [i|] eqn:E;
    [|exact Hplain].
  destruct (List.length buf - i <=? 5) eqn:E5; [|exact Hplain].
  apply Nat.leb_le in E5.
  destruct (find_trigger_below_some check buf _ _ E) as (Hi & _ & _).
  destruct (clean_context_sub (skipn i buf)) as [Hl Hin].
  exists (clean_context (skipn i buf)). split; [reflexivity|]. split.
  - rewrite length_skipn in Hl. lia.
  - intros e He. apply (skipn_in_earlier buf i); [lia|]. apply Hin. exact He.
Qed.

Lemma command_carries_at_most_five_entries_witness :
  exists selected,
    callback TriggerWords.contains_trigger_word
      ["hey friend"; "a"; "b"; "c"; "d"; "e"] "f"
    = join " " (selected ++ ["f"])%list
    /\ List.length selected <= 5
    /\ forall e, In e selected -> In e (skipn (6 - 5) ["hey friend"; "a"; "b"; "c"; "d"; "e"]).
Proof.
  apply (command_carries_at_most_five_entries TriggerWords.contains_trigger_word
           ["hey friend"; "a"; "b"; "c"; "d"; "e"] "f").
  discriminate.
Defined.

End Announcements.

(** ** process_message: history, file and executor *)

Section Requests.
Import VoiceToClaudeCode AssistantLoop.

Ltac reply_cases cfg env self message :=
  unfold process_message;
  destruct (check_for_stop_command message) eqn:Estop;
  [|destruct (check_for_trigger_word cfg message) eqn:Etrig; cbn [negb];
    [destruct (len message <? MIN_TEXT_LENGTH cfg)%Z eqn:Elen;
     [|destruct (popen_ok env) eqn:Epopen; cbn [negb];
       [destruct (wait_outcome (monitor_ok env) (schedule env))
          as [[rc out err| |]|] eqn:Ewait;
        [destruct (rc =? 0)%Z eqn:Erc| | |]|]]|]].



(** X12.  A call of [process_message] that returns has started the executor
    exactly when the message is no stop command, holds a trigger, has the
    minimum length, and [Popen] did not raise; it then started it once, on
    the history extended by the user entry. *)
Theorem executor_started_only_past_the_gates :
  forall (cfg : config) (env : exec_env) (self : assistant) (message : string)
         (r : reply),
    process_message cfg env self message = Some r ->
    (popens (effects r)
     = [(conversation_history self
         ++ [{| role := "user"; content := message |}])%list]
     <-> check_for_stop_command message = false
         /\ check_for_trigger_word cfg message = true
         /\ (MIN_TEXT_LENGTH cfg <= len message)%Z
         /\ popen_ok env = true)
    /\ (popens (effects r) = []
        \/ popens (effects r)
           = [(conversation_history self
               ++ [{| role := "user"; content := message |}])%list]).
Proof.
  intros cfg env self message r.
  reply_cases cfg env self message; intro H; try discriminate H;
    injection H as <-; cbn [effects popens app];
    try apply Z.ltb_lt in Elen; try apply Z.ltb_ge in Elen;
    (split; [split; [intro Hp; try discriminate Hp; repeat split; try reflexivity; assumption
                    | intros (H1 & H2 & H3 & H4); try discriminate; try lia; reflexivity]
            | (left; reflexivity) || (right; reflexivity)]).
Qed.

Lemma executor_started_only_past_the_gates_witness :
  popens [Popen [{| role := "user"; content := "hey friend write a script" |}]]
  = [([] ++ [{| role := "user"; content := "hey friend write a script" |}])%list].
Proof.
  apply (executor_started_only_past_the_gates default_config
           {| popen_ok := true; monitor_ok := true; schedule := [CtrlC] |}
           {| conversation_history := []; context_buffer := [];
              context_text := ""; trigger_already_displayed := false |}
           "hey friend write a script"
           {| result := None;
              after := {| conversation_history :=
                            [{| role := "user";
                                content := "hey friend write a script" |}];
                          context_buffer := []; context_text := "";
                          trigger_already_displayed := false |};
              effects := [Popen [{| role := "user";
                                    content := "hey friend write a script" |}]] |}).
  - vm_compute. reflexivity.
  - repeat split; vm_compute; try reflexivity. discriminate.
Defined.

End Requests.

(** ** The wait for the executor, continued *)

Section Waiting.
Import VoiceToClaudeCode AssistantLoop.

Lemma step_uncancelled (st : wait_state) (l : label) :
  uncancelled st ->
  (monitor_listening st = false
   \/ forall text, l = Heard text -> truthy text && monitor_detects text = false) ->
  uncancelled (step st l)
  /\ (monitor_listening st = false -> monitor_listening (step st l) = false).
Proof.
  intros [Hflag Hmain] Hdeaf. destruct l as [rc out err|text| |]; simpl.
  - destruct (proc st); simpl; repeat split; auto.
  - destruct (monitor_listening st) eqn:El; simpl.
    + destruct Hdeaf as [Hd|Hd]; [discriminate|].
      rewrite Hflag, (Hd text eq_refl). repeat split; auto.
    + repeat split; auto.
  - destruct (main st) eqn:Em; simpl.
    + destruct (proc st); simpl; repeat split; auto; rewrite ?Em; discriminate.
    + repeat split; auto; discriminate.
    + destruct (proc st); simpl.
      * repeat split; auto. rewrite Em. discriminate.
      * rewrite Hflag. repeat split; auto; discriminate.
    + repeat split; auto. rewrite Em. exact Hmain.
  - destruct (main st) eqn:Em; simpl; repeat split; auto; try discriminate.
    rewrite Em. exact Hmain.
Qed.

Lemma run_uncancelled (s : list label) :
  forall st,
    uncancelled st ->
    (monitor_listening st = false
     \/ forall text, In (Heard text) s -> truthy text && monitor_detects text = false) ->
    uncancelled (run s st).
Proof.
  induction s as [|l s IH]; intros st Hu Hdeaf; [exact Hu|].
  simpl.
  destruct (step_uncancelled st l Hu) as [Hu' Hl'].
  { destruct Hdeaf as [Hd|Hd]; [left; exact Hd|].
    right. intros text ->. apply Hd. left. reflexivity. }
  apply IH; [exact Hu'|].
  destruct Hdeaf as [Hd|Hd]; [left; apply Hl'; exact Hd|].
  right. intros text Hin. apply Hd. right. exact Hin.
Qed.

(** X13.  A request is never reported as cancelled by voice when the cancel
    monitor could not be started, nor when no transcript it hears holds a
    stop word. *)
Theorem no_voice_cancel_without_stop_word :
  forall (monitor : bool) (s : list label),
    (monitor = false
     \/ forall text, In (Heard text) s -> truthy text && monitor_detects text = false) ->
    wait_outcome monitor s <> Some VoiceCancelled.
Proof.
  intros monitor s Hdeaf.
  assert (Hu : uncancelled (run s (wait_start monitor))).
  { apply run_uncancelled.
    - split; [reflexivity | discriminate].
    - destruct Hdeaf as [->|Hd]; [left; reflexivity | right; exact Hd]. }
  destruct Hu as [_ Hmain]. unfold wait_outcome.
  destruct (main (run s (wait_start monitor))) as [| | |o]; try discriminate.
  intro H. injection H as ->. apply Hmain. reflexivity.
Qed.

Lemma no_voice_cancel_without_stop_word_witness :
  wait_outcome false [Heard "stop"; ProcExit 0 "done" ""; MainStep; MainStep;
                      MainStep]
  <> Some VoiceCancelled.
Proof.
  apply (no_voice_cancel_without_stop_word false). left. reflexivity.
Defined.

Lemma step_settled (st : wait_state) (l : label) :
  settled st -> settled (step st l).
Proof.
  unfold settled. intro H. destruct l as [rc out err|text| |]; simpl.
  - destruct (proc st) eqn:Ep; simpl; [|rewrite Ep; exact H].
    destruct (main st); auto; discriminate.
  - destruct (monitor_listening st); simpl; exact H.
  - destruct (main st) eqn:Em; simpl.
    + destruct (proc st) eqn:Ep; simpl; [rewrite Em; exact I|].
      rewrite Ep. discriminate.
    + exact H.
    + destruct (proc st) eqn:Ep; simpl;
        [exfalso; apply H; reflexivity | exact I].
    + rewrite Em. exact I.
  - destruct (main st) eqn:Em; simpl; try exact I. rewrite Em. exact I.
Qed.

Lemma run_settled (s : list label) :
  forall st, settled st -> settled (run s st).
Proof.
  induction s as [|l s IH]; intros st H; [exact H|].
  simpl. apply IH. apply step_settled. exact H.
Qed.

Lemma wait_returns (monitor : bool) (s : list label) (rc : Z)
    (out err : string) :
  exists o,
    wait_outcome monitor
      (s ++ [ProcExit rc out err; MainStep; MainStep; MainStep])%list
    = Some o.
Proof.
  unfold wait_outcome. rewrite run_app.
  pose proof (run_settled s (wait_start monitor) I) as Hs.
  set (st := run s (wait_start monitor)) in *.
  unfold settled in Hs. unfold run. cbn [fold_left].
  destruct st as [p flag listening m]. cbn [main proc] in Hs.
  destruct m as [| | |o]; destruct p as [|rc' out' err']; simpl;
    try (exfalso; apply Hs; reflexivity);
    eexists; reflexivity.
Qed.

(** X14.  Whatever happened before, once the subprocess has ended and the
    main thread has taken three more steps, [process_message] has
    returned. *)
Theorem request_returns_after_exit :
  forall (cfg : config) (popen monitor : bool) (s : list label) (rc : Z)
         (out err : string) (self : assistant) (message : string),
    exists r,
      process_message cfg
        {| popen_ok := popen; monitor_ok := monitor;
           schedule := (s ++ [ProcExit rc out err; MainStep; MainStep;
                              MainStep])%list |}
        self message = Some r.
Proof.
  intros cfg popen monitor s rc out err self message.
  unfold process_message.
  destruct (check_for_stop_command message); [eexists; reflexivity|].
  destruct (negb (check_for_trigger_word cfg message)); [eexists; reflexivity|].
  destruct (len message <? MIN_TEXT_LENGTH cfg)%Z; [eexists; reflexivity|].
  cbn [popen_ok monitor_ok schedule].
  destruct (negb popen); [eexists; reflexivity|].
  destruct (wait_returns monitor s rc out err) as [o Ho]. rewrite Ho.
  destruct o as [rc' out' err'| |]; try (eexists; reflexivity).
  destruct (rc' =? 0)%Z; eexists; reflexivity.
Qed.

End Waiting.

(** ** The initial input and the playback monitor *)

Section InitialInput.
Import VoiceToClaudeCode AssistantLoop.

Lemma initial_prompt_friend (cfg : config) (input : string) :
  initial_prompt cfg input = "friend " ++ input.
Proof.
  unfold initial_prompt, TRIGGER_VARIATIONS.
  destruct (trigger_module cfg); reflexivity.
Qed.

Lemma friend_prefix_no_greeting (x : string) :
  mem (strip ("friend " ++ x)) ["hello"; "hi"; "hey"; "ok"; "okay"] = false.
Proof.
  destruct (mem (strip ("friend " ++ x)) ["hello"; "hi"; "hey"; "ok"; "okay"])
    eqn:E; [|reflexivity].
  exfalso. unfold mem in E. apply existsb_exists in E.
  destruct E as (g & Hg & Heq). apply String.eqb_eq in Heq.
  destruct (strip_split ("friend " ++ x)) as (pre & post & Hs & Hpre & _).
  rewrite Heq in Hs. destruct pre as [|c pre].
  - simpl in Hg, Hs.
    repeat (destruct Hg as [<-|Hg]; [discriminate Hs|]). contradiction.
  - simpl in Hs. injection Hs as <- _. discriminate Hpre.
Qed.

(** X15.  [main] puts the first key, "friend", before the text of
    [--input] so that the text is processed.  With the built-in fallback the
    prompt built this way always holds a trigger; with the boolean matcher of
    the trigger-word module it does when the input has two words or more,
    while for an input of one word such as "status" it does not. *)
Theorem initial_input_prefix_and_trigger :
  forall (cfg : config) (input : string),
    (trigger_module cfg = false ->
     check_for_trigger_word cfg (initial_prompt cfg input) = true)
    /\ (trigger_module cfg = true ->
        2 <= List.length (split (lower input)) ->
        check_for_trigger_word cfg (initial_prompt cfg input) = true)
    /\ check_for_trigger_word default_config
         (initial_prompt default_config "status") = false.
Proof.
  intros cfg input. rewrite initial_prompt_friend.
  split; [|split].
  - intro Hm. unfold check_for_trigger_word, builtin_check. rewrite Hm.
    rewrite lower_app. change (lower "friend ") with "friend ".
    rewrite friend_prefix_no_greeting.
    unfold TRIGGER_VARIATIONS. rewrite Hm. reflexivity.
  - intros Hm Hwords. unfold check_for_trigger_word. rewrite Hm.
    assert (Hsplit : split (lower ("friend " ++ input))
                     = "friend" :: split (lower input)).
    { rewrite lower_app. reflexivity. }
    apply (long_utterance_with_trigger_word _ "friend").
    + simpl. tauto.
    + reflexivity.
    + rewrite Hsplit. left. reflexivity.
    + rewrite Hsplit. simpl. lia.
  - vm_compute. reflexivity.
Qed.

Lemma initial_input_prefix_and_trigger_witness :
  check_for_trigger_word default_config
    (initial_prompt default_config "create a file") = true.
Proof.
  apply (initial_input_prefix_and_trigger default_config "create a file").
  - reflexivity.
  - vm_compute. lia.
Defined.



Lemma split_aux_nospace (s : string) :
  forall cur w,
    nospace cur = true -> In w (split_aux s cur) -> nospace w = true.
Proof.
  assert (Hrev : forall a acc, nospace a = true -> nospace acc = true ->
                               nospace (rev_append a acc) = true).
  { induction a as [|c a IH]; intros acc Ha Hacc; [exact Hacc|].
    simpl in Ha. apply andb_true_iff in Ha. destruct Ha as [Hc Ha].
    simpl. apply IH; [exact Ha|]. simpl. rewrite Hc, Hacc. reflexivity. }
  induction s as [|c s IH]; intros cur w Hcur H.
  - simpl in H. destruct cur as [|a cur]; [contradiction|].
    destruct H as [<-|[]]. apply Hrev; [exact Hcur | reflexivity].
  - simpl in H. destruct (isspace c) eqn:Ec.
    + destruct cur as [|a cur].
      * apply (IH "" w eq_refl H).
      * destruct H as [<-|H].
        -- apply Hrev; [exact Hcur | reflexivity].
        -- apply (IH "" w eq_refl H).
    + apply (IH (String c cur) w); [|exact H].
      simpl. rewrite Ec, Hcur. reflexivity.
Qed.

Lemma nospace_no_space_inside (w x : string) :
  nospace w = true -> contains (" " ++ x) w = false.
Proof.
  change (" " ++ x) with (String " " x).
  induction w as [|c w IH]; intro H; [reflexivity|].
  simpl in H. apply andb_true_iff in H. destruct H as [Hc Hw].
  cbn [contains startswith]. rewrite (IH Hw), orb_false_r.
  destruct (Ascii.eqb " " c) eqn:E; [|reflexivity].
  apply Ascii.eqb_eq in E. subst c. discriminate Hc.
Qed.

Lemma contains_tail_pattern (c : ascii) (p s : string) :
  contains (String c p) s = true -> contains p s = true.
Proof.
  induction s as [|a s IH]; intro H; [discriminate H|].
  simpl in H. apply orb_true_iff in H. destruct H as [H|H].
  - apply andb_true_iff in H. destruct H as [_ H].
    simpl. rewrite (contains_prefix p s H). apply orb_true_r.
  - simpl. rewrite (IH H). apply orb_true_r.
Qed.

Lemma existsb_pointwise {A : Type} (f g : A -> bool) (l : list A) :
  (forall x, f x = g x) -> existsb f l = existsb g l.
Proof.
  intro H. induction l as [|a l IH]; [reflexivity|].
  simpl. rewrite H, IH. reflexivity.
Qed.

Lemma startswith_refl (s : string) : startswith s s = true.
Proof. rewrite <- (string_app_nil_r s) at 2. apply startswith_app. Qed.

(** X17.  The stop test of the playback monitor comes down to two tests per
    word: the word starts with a stop word, or it holds a stop word of at
    most four letters behind a hyphen.  The exact-match test adds nothing,
    and the test for a stop word behind a space can never succeed, since the
    words come from [split]. *)
Theorem playback_stop_test_simplified :
  forall text : string,
    tts_cancel_detects text
    = truthy text
      && existsb
           (fun word =>
              existsb (fun stop =>
                         startswith stop word
                         || ((String.length stop <=? 4)
                             && contains ("-" ++ stop) word))
                      tts_stop_words)
           (split (lower text)).
Proof.
  intro text. unfold tts_cancel_detects. f_equal.
  assert (Hwords : forall w, In w (split (lower text)) -> nospace w = true).
  { intros w Hw. apply (split_aux_nospace (lower text) "" w eq_refl Hw). }
  induction (split (lower text)) as [|w ws IH]; [reflexivity|].
  cbn [existsb]. rewrite IH by (intros x Hx; apply Hwords; right; exact Hx).
  f_equal. clear IH.
  specialize (Hwords w (or_introl eq_refl)).
  unfold tts_is_stop_command.
  assert (Heach : forall stop,
             startswith stop w
             || ((String.length stop <=? 4) && contains stop w
                 && (startswith stop w || contains ("-" ++ stop) w
                     || contains (" " ++ stop) w))
             = startswith stop w
               || ((String.length stop <=? 4) && contains ("-" ++ stop) w)).
  { intro stop. rewrite (nospace_no_space_inside w stop Hwords), orb_false_r.
    destruct (startswith stop w) eqn:Es; [reflexivity|]. cbn [orb].
    destruct (String.length stop <=? 4); [|reflexivity]. cbn [andb].
    destruct (contains ("-" ++ stop) w) eqn:Eh.
    - rewrite (contains_tail_pattern "-" stop w Eh). reflexivity.
    - apply andb_false_r. }
  rewrite (existsb_pointwise _ _ tts_stop_words Heach).
  destruct (mem w tts_stop_words) eqn:Em; [|reflexivity].
  cbn [orb]. symmetry. unfold mem in Em. apply existsb_exists in Em.
  destruct Em as (stop & Hin & Heq). apply String.eqb_eq in Heq. subst stop.
  apply existsb_exists. exists w. split; [exact Hin|].
  rewrite startswith_refl. reflexivity.
Qed.

End InitialInput.

(** ** The process monitor: triggers, rounds and health checks *)

Section ListenerRounds.
Import VoiceAfkListener ListenerLoop.

Lemma strip_allspace (s : string) : allspace s = true -> strip s = "".
Proof.
  intro H. unfold strip.
  assert (L : lstrip s = "").
  { rewrite <- (string_app_nil_r s).
    rewrite (lstrip_allspace_app s "" H). reflexivity. }
  rewrite L. reflexivity.
Qed.

(** X18.  [check_trigger_words] keeps the empty pieces of the configured
    list.  When one item of the comma-separated setting is blank, as after
    a trailing comma, every text that is not empty counts as a trigger. *)
Theorem blank_trigger_item_accepts_everything :
  forall (self : listener) (vc : voice_config_t) (item text : string),
    voice_config self = Some vc ->
    In item (split_on "," (voice_triggers vc)) ->
    allspace item = true ->
    text <> "" ->
    check_trigger_words self text = Some true.
Proof.
  intros self vc item text Hvc Hin Hblank Htext.
  apply truthy_true_iff in Htext.
  unfold check_trigger_words. rewrite Htext, Hvc. cbn [negb].
  f_equal. apply existsb_exists. exists "". split.
  - unfold configured_triggers. apply in_map_iff. exists item.
    split; [|exact Hin].
    rewrite (strip_allspace item Hblank). reflexivity.
  - destruct (lower text); reflexivity.
Qed.

Lemma blank_trigger_item_accepts_everything_witness :
  check_trigger_words
    (set_voice_config
       (Some {| stt_model := "small.en"; tts_voice := "nova";
                voice_triggers := "claude,assistant,";
                last_update := ""; voice_interactions := [] |})
       (init "afk-1" false false))
    "good morning"
  = Some true.
Proof.
  apply (blank_trigger_item_accepts_everything _
           {| stt_model := "small.en"; tts_voice := "nova";
              voice_triggers := "claude,assistant,";
              last_update := ""; voice_interactions := [] |} "").
  - reflexivity.
  - vm_compute. right. right. left. reflexivity.
  - reflexivity.
  - discriminate.
Defined.

(** What [speak] writes to the log is what it hands to the voice output. *)
Lemma speak_log (w : world) (self : listener) (text : string)
    (vc : voice_config_t) :
  voice_config self = Some vc ->
  exists vc',
    voice_config (fst (speak w self text)) = Some vc'
    /\ voice_interactions vc'
       = (voice_interactions vc
          ++ tts_records w (spoken (snd (speak w self text))))%list
    /\ voice_triggers vc' = voice_triggers vc
    /\ List.length (spoken (snd (speak w self text))) <= 1.
Proof.
  intro Hvc. unfold speak, add_interaction. rewrite Hvc.
  destruct (truthy text); cbn.
  - eexists. split; [reflexivity|]. cbn. repeat split. lia.
  - exists vc. rewrite app_nil_r. repeat split; [exact Hvc | lia].
Qed.

Ltac log_through w s Hs :=
  match goal with
  | |- context [speak w s ?t] =>
      let vc' := fresh "vc'" in
      let H1 := fresh in let H2 := fresh in
      let H3 := fresh in let H4 := fresh in
      destruct (speak_log w s t _ Hs) as (vc' & H1 & H2 & H3 & H4);
      destruct (speak w s t);
      cbn [fst snd spoken] in *;
      exists vc'; repeat split; assumption
  end.

Lemma process_command_log (w : world) (self : listener)
    (vc : voice_config_t) (text : string) :
  voice_config self = Some vc ->
  exists vc',
    voice_config (snd (fst (process_command w self text))) = Some vc'
    /\ voice_interactions vc'
       = (voice_interactions vc
          ++ tts_records w (spoken (snd (process_command w self text))))%list
    /\ voice_triggers vc' = voice_triggers vc
    /\ List.length (spoken (snd (process_command w self text))) <= 1.
Proof.
  intro Hvc.
  assert (Hskip : exists vc',
             voice_config self = Some vc'
             /\ voice_interactions vc'
                = (voice_interactions vc ++ tts_records w [])%list
             /\ voice_triggers vc' = voice_triggers vc /\ 0 <= 1).
  { exists vc. cbn. rewrite app_nil_r. repeat split; [exact Hvc | lia]. }
  unfold process_command.
  destruct (negb (truthy text)); [exact Hskip|].
  destruct (Qltb _ _); [exact Hskip|]. clear Hskip.
  cbv zeta.
  set (s := set_last_command_time (clock w) self).
  assert (Hs : voice_config s = Some vc) by exact Hvc.
  set (s2 := set_process_info (process_file w) s).
  assert (Hs2 : voice_config s2 = Some vc) by exact Hvc.
  destruct (any_in status_words (lower text)).
  { unfold command_status. fold s2.
    destruct (process_info s2); log_through w s2 Hs2. }
  destruct (any_in pause_words (lower text)).
  { unfold command_pause. log_through w s Hs. }
  destruct (any_in resume_words (lower text)).
  { unfold command_resume. log_through w s Hs. }
  destruct (any_in summarize_words (lower text)).
  { unfold command_summarize. fold s2.
    destruct (process_info s2); [destruct (log_file w)|];
      log_through w s2 Hs2. }
  destruct (any_in complete_words (lower text)).
  { unfold command_complete. log_through w s Hs. }
  log_through w s Hs.
Qed.

(** X19.  With a voice configuration loaded, the interactions that a call
    of [process_command] adds to the log are the records of the texts it
    hands to the voice output, in order and stamped with the time of the
    call; it hands over one text at most and leaves the configured triggers
    alone. *)
Theorem spoken_replies_are_logged :
  forall (w : world) (self : listener) (vc : voice_config_t) (text : string),
    voice_config self = Some vc ->
    exists vc',
      voice_config (snd (fst (process_command w self text))) = Some vc'
      /\ voice_interactions vc'
         = (voice_interactions vc
            ++ tts_records w (spoken (snd (process_command w self text))))%list
      /\ voice_triggers vc' = voice_triggers vc
      /\ List.length (spoken (snd (process_command w self text))) <= 1.
Proof. exact process_command_log. Qed.

Lemma spoken_replies_are_logged_witness :
  exists vc',
    voice_config
      (snd (fst (process_command (sample_world 100) sample_listener "pause it")))
    = Some vc'
    /\ voice_interactions vc'
       = [{| timestamp := "2025-05-15T10:01:40Z"; type_ := "tts_output";
             content := "I've received your request to pause the process. This functionality is not yet implemented." |}].
Proof.
  destruct (spoken_replies_are_logged (sample_world 100) sample_listener
              {| stt_model := "small.en"; tts_voice := "nova";
                 voice_triggers := "claude,cloud,assistant,hey,ok,voice";
                 last_update := "2025-05-15T10:00:00Z";
                 voice_interactions := [] |}
              "pause it" eq_refl)
    as (vc' & Hc & Hi & _).
  exists vc'. split; [exact Hc|]. rewrite Hi. vm_compute. reflexivity.
Defined.

Lemma speak_answers (w : world) (self : listener) (text : string) :
  truthy text = true -> answered (snd (speak w self text)) = true.
Proof.
  intro H. unfold speak. rewrite H. cbn [negb].
  destruct (add_interaction w self "tts_output" text) as [s' ev].
  destruct ev; reflexivity.
Qed.

(** A call is either ignored, or it is past the cooldown test, answers, and
    becomes the last command. *)
Lemma process_command_gate (w : world) (self : listener) (text : string) :
  process_command w self text = (false, self, [])
  \/ ((command_cooldown self <= clock w - last_command_time self)%Q
      /\ exists b self' ev,
           process_command w self text = (b, self', ev)
           /\ answered ev = true
           /\ last_command_time self' = clock w
           /\ command_cooldown self' = command_cooldown self).
Proof.
  unfold process_command.
  destruct (negb (truthy text)); [left; reflexivity|].
  destruct (Qltb _ _) eqn:E; [left; reflexivity|].
  right. split.
  { unfold Qltb in E. apply negb_false_iff in E.
    apply Qle_bool_iff in E. exact E. }
  cbv zeta.
  set (s := set_last_command_time (clock w) self).
  assert (Hl : last_command_time s = clock w) by reflexivity.
  assert (Hc : command_cooldown s = command_cooldown self) by reflexivity.
  clearbody s.
  assert (Hh : forall k (r : bool * listener * list event),
             (exists b self' ev,
                 r = (b, self', Handler k :: ev)
                 /\ last_command_time self' = last_command_time s
                 /\ command_cooldown self' = command_cooldown s) ->
             exists b self' ev,
               r = (b, self', ev) /\ answered ev = true
               /\ last_command_time self' = clock w
               /\ command_cooldown self' = command_cooldown self).
  { intros k r (b & self' & ev & Hr & H1 & H2).
    exists b, self', (Handler k :: ev).
    rewrite H1, H2, Hl, Hc. repeat split. exact Hr. }
  destruct (any_in status_words (lower text)).
  { apply (Hh KStatus), handler_shape_status. }
  destruct (any_in pause_words (lower text)).
  { apply (Hh KPause), handler_shape_pause. }
  destruct (any_in resume_words (lower text)).
  { apply (Hh KResume), handler_shape_resume. }
  destruct (any_in summarize_words (lower text)).
  { apply (Hh KSummarize), handler_shape_summarize. }
  destruct (any_in complete_words (lower text)).
  { apply (Hh KComplete), handler_shape_complete. }
  pose proof (speak_frame w s unknown_reply) as [H1 H2].
  pose proof (speak_answers w s unknown_reply eq_refl) as H3.
  destruct (speak w s unknown_reply) as [self' ev].
  cbn [fst snd] in *.
  exists false, self', ev. rewrite H1, H2, Hl, Hc. repeat split. exact H3.
Qed.

(** X20.  Over any run of calls of [process_command], whatever the clock
    reads and whatever is said, each answered call comes at least the
    cooldown after the answered call before it, the first at least the
    cooldown after the time the listener started with; replies to commands
    that were not understood count as answers.  The cooldown itself never
    changes. *)
Theorem answered_commands_are_spaced :
  forall (calls : list (world * string)) (self : listener),
    spaced (command_cooldown self) (last_command_time self)
           (answered_times calls (snd (replay calls self)))
    /\ command_cooldown (fst (replay calls self)) = command_cooldown self.
Proof.
  induction calls as [|[w text] rest IH]; intro self.
  - split; [exact I | reflexivity].
  - cbn [replay].
    destruct (process_command_gate w self text)
      as [Hskip | (Hgap & b & self' & ev & Hrun & Hans & Hl & Hc)].
    + rewrite Hskip. specialize (IH self).
      destruct (replay rest self) as [self2 results].
      cbn [fst snd answered_times answered] in *. exact IH.
    + rewrite Hrun. specialize (IH self').
      destruct (replay rest self') as [self2 results].
      cbn [fst snd answered_times] in *. rewrite Hans.
      rewrite Hl, Hc in IH. destruct IH as [IH1 IH2].
      split; [|exact IH2]. split; [exact Hgap | exact IH1].
Qed.

Lemma speak_keeps_process_info (w : world) (self : listener) (text : string) :
  process_info (fst (speak w self text)) = process_info self.
Proof.
  unfold speak, add_interaction.
  destruct (truthy text); [|reflexivity].
  destruct (voice_config self); reflexivity.
Qed.

Lemma maybe_speak_keeps_process_info (c : bool) (w : world) (self : listener)
    (text : string) :
  process_info (fst (if c then speak w self text else (self, [])))
  = process_info self.
Proof. destruct c; [apply speak_keeps_process_info | reflexivity]. Qed.

Lemma check_process_health_info (pm : process_info_t -> string) (w : world)
    (self : listener) :
  process_info (fst (check_process_health pm w self)) = process_file w.
Proof.
  unfold check_process_health.
  set (s := set_process_info (process_file w) self).
  assert (Hs : process_info s = process_file w) by reflexivity.
  clearbody s.
  destruct (process_info s) as [info|] eqn:Ei; [|cbn; congruence].
  match goal with
  | |- context [let (_, _) := ?first in _] =>
      assert (H1 : process_info (fst first) = process_info s);
      [|destruct first as [self1 ev1]]
  end.
  { destruct (negb (String.eqb (status info) _)); [|reflexivity].
    destruct (String.eqb (status info) "completed");
      [apply speak_keeps_process_info|].
    destruct (String.eqb (status info) "failed");
      [apply speak_keeps_process_info | reflexivity]. }
  cbn [fst] in H1.
  match goal with
  | |- context [if ?c then speak w self1 ?t else _] =>
      pose proof (maybe_speak_keeps_process_info c w self1 t) as H2;
      destruct (if c then speak w self1 t else (self1, [])) as [self2 ev2]
  end.
  cbn [fst] in H2.
  match goal with
  | |- context [if ?c then speak w self2 ?t else _] =>
      pose proof (maybe_speak_keeps_process_info c w self2 t) as H3;
      destruct (if c then speak w self2 t else (self2, [])) as [self3 ev3]
  end.
  cbn [fst] in *. congruence.
Qed.

(** X21.  [check_process_health] speaks of changes only: a check that
    follows another and finds the process file as the earlier one found it
    says nothing and leaves the listener as it is. *)
Theorem unchanged_process_file_is_silent :
  forall (pm : process_info_t -> string) (w1 w2 : world) (self : listener),
    process_file w2 = process_file w1 ->
    check_process_health pm w2 (fst (check_process_health pm w1 self))
    = (fst (check_process_health pm w1 self), []).
Proof.
  intros pm w1 w2 self Hfile.
  pose proof (check_process_health_info pm w1 self) as Hinfo.
  set (s1 := fst (check_process_health pm w1 self)) in *. clearbody s1.
  rewrite <- Hfile in Hinfo.
  unfold check_process_health.
  assert (Hset : set_process_info (process_file w2) s1 = s1).
  { destruct s1. cbn in Hinfo. subst. reflexivity. }
  rewrite Hset. clear Hset.
  destruct (process_info s1) as [info|]; [|reflexivity].
  rewrite !String.eqb_refl, Z.ltb_irrefl. reflexivity.
Qed.

Lemma unchanged_process_file_is_silent_witness :
  exists s1 ev1,
    check_process_health (fun _ => "progress")
      {| clock := 10; utcnow := "2025-05-15T10:01:40Z";
         process_file := Some {| status := "completed"; current_iteration := 4;
                                 iterations := 4; current_phase := "report";
                                 query := "q" |};
         log_file := LogMissing; status_message := fun _ => "status";
         summary_message := fun _ _ => "summary" |}
      sample_listener = (s1, ev1)
    /\ List.length (spoken ev1) = 3
    /\ check_process_health (fun _ => "progress")
         {| clock := 15; utcnow := "2025-05-15T10:01:45Z";
            process_file := Some {| status := "completed"; current_iteration := 4;
                                    iterations := 4; current_phase := "report";
                                    query := "q" |};
            log_file := LogMissing; status_message := fun _ => "status";
            summary_message := fun _ _ => "summary" |}
         s1 = (s1, []).
Proof.
  do 2 eexists. split; [vm_compute; reflexivity|]. split; [reflexivity|].
  apply (unchanged_process_file_is_silent (fun _ => "progress")
           {| clock := 10; utcnow := "2025-05-15T10:01:40Z";
              process_file := Some {| status := "completed"; current_iteration := 4;
                                      iterations := 4; current_phase := "report";
                                      query := "q" |};
              log_file := LogMissing; status_message := fun _ => "status";
              summary_message := fun _ _ => "summary" |}
           {| clock := 15; utcnow := "2025-05-15T10:01:45Z";
              process_file := Some {| status := "completed"; current_iteration := 4;
                                      iterations := 4; current_phase := "report";
                                      query := "q" |};
              log_file := LogMissing; status_message := fun _ => "status";
              summary_message := fun _ _ => "summary" |}
           sample_listener).
  reflexivity.
Defined.

(** X22.  In a round of [passive_listen_loop] with a recorder and a voice
    configuration, a trigger followed by a command that is not empty leaves
    the log in this order: the trigger, the command, then the record of the
    reply if one was spoken.  The trigger and the command are logged even
    when the command is then ignored. *)
Theorem passive_round_log_order :
  forall (w1 w2 w3 : world) (self : listener) (vc : voice_config_t)
         (heard command : string),
    voice_config self = Some vc ->
    has_recorder self = true ->
    check_trigger_words self heard = Some true ->
    command <> "" ->
    exists self' ev,
      passive_round w1 w2 w3 self (Some heard) (Some command)
      = Some (self', SavedConfig :: SavedConfig :: ev)
      /\ interactions self'
         = (voice_interactions vc
            ++ [{| timestamp := utcnow w1; type_ := "trigger_detected";
                   content := heard |};
                {| timestamp := utcnow w2; type_ := "voice_command";
                   content := command |}]
            ++ tts_records w3 (spoken ev))%list
      /\ List.length (spoken ev) <= 1.
Proof.
  intros w1 w2 w3 self vc heard command Hvc Hrec Htrig Hcmd.
  apply truthy_true_iff in Hcmd.
  assert (Hheard : truthy heard = true).
  { destruct (truthy heard) eqn:E; [reflexivity|].
    unfold check_trigger_words in Htrig. rewrite E in Htrig.
    discriminate Htrig. }
  unfold passive_round. rewrite Hheard, Htrig.
  unfold listen_for_command, add_interaction. rewrite Hvc.
  cbn [set_voice_config has_recorder voice_config]. rewrite Hrec.
  cbn [negb]. rewrite Hcmd.
  match goal with
  | |- context [process_command w3 ?s command] =>
      destruct (process_command_log w3 s
                  {| stt_model := stt_model vc; tts_voice := tts_voice vc;
                     voice_triggers := voice_triggers vc;
                     last_update := utcnow w2;
                     voice_interactions :=
                       ((voice_interactions vc
                         ++ [{| timestamp := utcnow w1;
                                type_ := "trigger_detected";
                                content := heard |}])
                        ++ [{| timestamp := utcnow w2;
                               type_ := "voice_command";
                               content := command |}])%list |}
                  command eq_refl) as (vc' & H1 & H2 & _ & H4);
      destruct (process_command w3 s command) as [[b s3] ev3]
  end.
  cbn [fst snd] in *.
  exists s3, ev3. split; [reflexivity|]. split; [|exact H4].
  unfold interactions. rewrite H1, H2. cbn [voice_interactions].
  rewrite <- !app_assoc. reflexivity.
Qed.

Lemma passive_round_log_order_witness :
  exists self' ev,
    passive_round (sample_world 100) (sample_world 101) (sample_world 102)
      (set_voice_config (voice_config sample_listener)
         {| process_id := "afk-1"; background_mode := false;
            has_recorder := true; has_client := false; running := true;
            voice_config := None; process_info := None;
            last_command_time := 0; command_cooldown := 3 |})
      (Some "hey there") (Some "what is the status")
    = Some (self', SavedConfig :: SavedConfig :: ev)
    /\ List.length (interactions self') = 3.
Proof.
  destruct (passive_round_log_order
              (sample_world 100) (sample_world 101) (sample_world 102)
              (set_voice_config (voice_config sample_listener)
                 {| process_id := "afk-1"; background_mode := false;
                    has_recorder := true; has_client := false; running := true;
                    voice_config := None; process_info := None;
                    last_command_time := 0; command_cooldown := 3 |})
              {| stt_model := "small.en"; tts_voice := "nova";
                 voice_triggers := "claude,cloud,assistant,hey,ok,voice";
                 last_update := "2025-05-15T10:00:00Z";
                 voice_interactions := [] |}
              "hey there" "what is the status")
    as (self' & ev & Hrun & Hlog & _);
    try reflexivity; try discriminate.
  exists self', ev. split; [exact Hrun|].
  vm_compute in Hrun. injection Hrun as <- <-. reflexivity.
Defined.

End ListenerRounds.
